(** * Role-based access control backend: authentication, visibility, seeding

    A shallow embedding of the two implementations that live side by side in
    the repository

      - the handler-embedded one, [backend/app.py]  (module [App] below), and
      - the module-split one, [backend/db.py], [backend/models.py] and
        [backend/auth.py]  (modules [Db], [Models] and [Auth] below),

    followed by the properties of the specification, each settled against
    these definitions. *)

From stdpp Require Import base decidable option list strings gmap pretty.
From Stdlib Require Import ZArith NArith Lia.
From Stdlib Require QArith.

Local Open Scope N_scope.

(** ** Python values *)

(** A Python [str] is a sequence of Unicode code points, a [bytes] object a
    sequence of byte values. *)
Abbreviation pystr := (list N).
Abbreviation bytes := (list N).

(** The code points of an ASCII literal of the source. *)
Definition lit (s : string) : pystr :=
  Ascii.N_of_ascii <$> String.list_ascii_of_string s.

(** [str(n)] for a Python [int]. *)
Definition str_of_int (n : Z) : pystr := lit (pretty n).

(** [s.encode("utf-8")].  Python refuses to encode the surrogate code
    points U+D800..U+DFFF and raises; that case is left out here, the
    function is the encoding of text without surrogates. *)
Definition encode_utf8_char (c : N) : bytes :=
  if c <? 128 then [c]
  else if c <? 2048 then [192 + c `div` 64; 128 + c `mod` 64]
  else if c <? 65536 then
    [224 + c `div` 4096; 128 + (c `div` 64) `mod` 64; 128 + c `mod` 64]
  else
    [240 + c `div` 262144; 128 + (c `div` 4096) `mod` 64;
     128 + (c `div` 64) `mod` 64; 128 + c `mod` 64].

Definition encode_utf8 (s : pystr) : bytes := s ≫= encode_utf8_char.

(** The values a column or a JSON field of this program holds: [id] is an
    integer, [nombre], [rol], [username] and [password_hash] are text,
    [renta_mensual] is a REAL, which the program carries and never computes
    with. *)
Inductive pyval :=
  | VInt (n : Z)
  | VReal (q : QArith_base.Q)
  | VStr (s : pystr).

Global Instance Q_eq_dec : EqDecision QArith_base.Q.
Proof. solve_decision. Defined.

Global Instance pyval_eq_dec : EqDecision pyval.
Proof. solve_decision. Defined.

(** A Python [dict] with the string keys of the source. *)
Abbreviation pydict := (gmap string pyval).

(** Truth value of an [Optional[dict]] and of an [Optional[str]]:
    [None], the empty dict and the empty string are false. *)
Definition truthy_dict (o : option pydict) : bool :=
  match o with
  | None => false
  | Some d => bool_decide (d ≠ ∅)
  end.

Definition truthy_str (o : option pystr) : bool :=
  match o with
  | None => false
  | Some s => bool_decide (s ≠ [])
  end.

(** Exceptions the modelled code can raise. *)
Inductive exn :=
  | OSError | JSONDecodeError | KeyError | TypeError
  | IntegrityError | ValueError.

Inductive result (A : Type) :=
  | Ok (a : A)
  | Raise (e : exn).
Arguments Ok {A} a.
Arguments Raise {A} e.

(** ** The Unicode character database

    [_slugify], [str.lower], [str.split], [str.isalnum] and [int] consult the
    interpreter's Unicode tables.  The program is modelled over any such
    tables; the concrete tables [ucd] further down are the ones of CPython
    (Unicode 14) on text whose code points lie below U+0100. *)
Record unicode := {
  normalize_NFKD : pystr → pystr;   (* unicodedata.normalize("NFKD", s) *)
  combining : N → N;                (* unicodedata.combining(ch) *)
  lower : pystr → pystr;            (* s.lower() *)
  isspace : N → bool;               (* ch.isspace() *)
  isalnum : N → bool;               (* ch.isalnum() *)
  decimal : N → option N            (* the digit value when ch.isdecimal() *)
}.

Module Ucd.

(** Compatibility decompositions of U+0000..U+00FF. *)
Definition decomposition : list (N * list N) :=
  [(160, [32]); (168, [32; 776]); (170, [97]); (175, [32; 772]);
   (178, [50]); (179, [51]); (180, [32; 769]); (181, [956]);
   (184, [32; 807]); (185, [49]); (186, [111]);
   (188, [49; 8260; 52]); (189, [49; 8260; 50]); (190, [51; 8260; 52]);
   (192, [65; 768]); (193, [65; 769]); (194, [65; 770]); (195, [65; 771]);
   (196, [65; 776]); (197, [65; 778]); (199, [67; 807]);
   (200, [69; 768]); (201, [69; 769]); (202, [69; 770]); (203, [69; 776]);
   (204, [73; 768]); (205, [73; 769]); (206, [73; 770]); (207, [73; 776]);
   (209, [78; 771]);
   (210, [79; 768]); (211, [79; 769]); (212, [79; 770]); (213, [79; 771]);
   (214, [79; 776]);
   (217, [85; 768]); (218, [85; 769]); (219, [85; 770]); (220, [85; 776]);
   (221, [89; 769]);
   (224, [97; 768]); (225, [97; 769]); (226, [97; 770]); (227, [97; 771]);
   (228, [97; 776]); (229, [97; 778]); (231, [99; 807]);
   (232, [101; 768]); (233, [101; 769]); (234, [101; 770]);
   (235, [101; 776]);
   (236, [105; 768]); (237, [105; 769]); (238, [105; 770]);
   (239, [105; 776]);
   (241, [110; 771]);
   (242, [111; 768]); (243, [111; 769]); (244, [111; 770]);
   (245, [111; 771]); (246, [111; 776]);
   (249, [117; 768]); (250, [117; 769]); (251, [117; 770]);
   (252, [117; 776]); (253, [121; 769]); (255, [121; 776])].

Fixpoint assoc (c : N) (t : list (N * list N)) : list N :=
  match t with
  | [] => [c]
  | (k, d) :: t' => if k =? c then d else assoc c t'
  end.

(** On this range no decomposition yields two adjacent combining marks, so
    the canonical reordering step of the normal form has nothing to do. *)
Definition nfkd (s : pystr) : pystr := s ≫= (λ c, assoc c decomposition).

(** Canonical combining classes of the block U+0300..U+036F; every other
    code point that a decomposition above produces has class 0. *)
Definition combining_marks : list N :=
  [230; 230; 230; 230; 230; 230; 230; 230; 230; 230; 230; 230; 230; 230;
   230; 230; 230; 230; 230; 230; 230; 232; 220; 220; 220; 220; 232; 216;
   220; 220; 220; 220; 220; 202; 202; 220; 220; 220; 220; 202; 202; 220;
   220; 220; 220; 220; 220; 220; 220; 220; 220; 220; 1; 1; 1; 1; 1; 220;
   220; 220; 220; 230; 230; 230; 230; 230; 230; 230; 230; 240; 230; 220;
   220; 220; 230; 230; 230; 220; 220; 0; 230; 230; 230; 220; 220; 220;
   220; 230; 232; 220; 220; 230; 233; 234; 234; 233; 234; 234; 233; 230;
   230; 230; 230; 230; 230; 230; 230; 230; 230; 230; 230; 230].

Definition ccc (c : N) : N :=
  if (768 <=? c) && (c <? 880)
  then default 0 (combining_marks !! N.to_nat (c - 768))
  else 0.

Definition between (a b c : N) : bool := (a <=? c) && (c <=? b).

Definition lower_char (c : N) : N :=
  if between 65 90 c then c + 32
  else if between 192 222 c && negb (c =? 215) then c + 32
  else c.

Definition space (c : N) : bool :=
  between 9 13 c || between 28 32 c || (c =? 133) || (c =? 160).

Definition alnum (c : N) : bool :=
  between 48 57 c || between 65 90 c || between 97 122 c
  || (c =? 170) || (c =? 178) || (c =? 179) || (c =? 181) || (c =? 185)
  || (c =? 186) || between 188 190 c
  || between 192 214 c || between 216 246 c || between 248 255 c
  || (c =? 956).

Definition digit (c : N) : option N :=
  if between 48 57 c then Some (c - 48) else None.

End Ucd.

Definition ucd : unicode := {|
  normalize_NFKD := Ucd.nfkd;
  combining := Ucd.ccc;
  lower := fmap Ucd.lower_char;
  isspace := Ucd.space;
  isalnum := Ucd.alnum;
  decimal := Ucd.digit
|}.

(** ** String methods *)

Module Str.
Section WithUnicode.
Variable U : unicode.

(** [s.strip()] *)
Fixpoint lstrip (s : pystr) : pystr :=
  match s with
  | [] => []
  | c :: t => if isspace U c then lstrip t else s
  end.

Definition strip (s : pystr) : pystr := reverse (lstrip (reverse (lstrip s))).

(** [s.split()]: the maximal runs of non-whitespace characters.  [word] is
    the run being read, last character first. *)
Fixpoint split_from (word : pystr) (s : pystr) : list pystr :=
  match s with
  | [] => if word is [] then [] else [reverse word]
  | c :: t =>
      if isspace U c
      then (if word is [] then split_from [] t
            else reverse word :: split_from [] t)
      else split_from (c :: word) t
  end.

Definition split (s : pystr) : list pystr := split_from [] s.

(** [sep.join(words)] *)
Fixpoint join (sep : pystr) (words : list pystr) : pystr :=
  match words with
  | [] => []
  | [w] => w
  | w :: ws => w ++ sep ++ join sep ws
  end.

(** [s.replace(old, new)] for a one-character [old], as db.py uses it. *)
Definition replace_char (old : N) (new : pystr) (s : pystr) : pystr :=
  s ≫= (λ c, if c =? old then new else [c]).

(** [int(s)] for a [str]: surrounding whitespace is dropped, then an
    optional sign and decimal digits follow, single underscores being
    allowed between digits.  Anything else raises [ValueError].  (Recent
    interpreters also raise [ValueError] on literals of more than 4300
    digits; that limit is left out.) *)
Fixpoint digits_from (acc : N) (after_digit : bool) (s : pystr) : option N :=
  match s with
  | [] => if after_digit then Some acc else None
  | c :: t =>
      match decimal U c with
      | Some d => digits_from (10 * acc + d) true t
      | None =>
          if (c =? 95) && after_digit
          then (if t is [] then None else digits_from acc false t)
          else None
      end
  end.

Definition int_of_str (s : pystr) : result Z :=
  let body := strip s in
  let parsed :=
    match body with
    | 45 :: t => (λ n, - Z.of_N n)%Z <$> digits_from 0 false t
    | 43 :: t => Z.of_N <$> digits_from 0 false t
    | _ => Z.of_N <$> digits_from 0 false body
    end in
  match parsed with
  | Some n => Ok n
  | None => Raise ValueError
  end.

End WithUnicode.
End Str.

(** ** The [usuarios] table

    One row per user; [uid] is the column [id] (INTEGER PRIMARY KEY) and
    [username] carries a UNIQUE constraint.  SQLite's INTEGER is a signed
    64-bit value; ids are unbounded integers here, and the error that the
    driver raises when it is handed a larger Python [int] is left out. *)
Record row := {
  uid : Z;
  nombre : pystr;
  rol : pystr;
  renta_mensual : QArith_base.Q;
  username : pystr;
  password_hash : pystr
}.

Abbreviation table := (list row).

(** The two key constraints of the schema. *)
Definition keys_ok (t : table) : Prop :=
  NoDup (uid <$> t) ∧ NoDup (username <$> t).

(** ** The sqlite3 connection

    Python's [sqlite3] module opens a transaction implicitly before the first
    INSERT or DELETE and keeps the changes in it until [commit]; [close], or
    the loss of the connection, discards them.  [disk] is what the database
    file durably holds, [pending] the working copy of an open transaction.

    The world of a run also counts the salts drawn from [bcrypt.gensalt]. *)
Module Sqlite.

Record world := {
  disk : table;
  pending : option table;
  drawn : nat
}.

Definition connect (d : table) : world :=
  {| disk := d; pending := None; drawn := 0 |}.

Definition rows (w : world) : table := default (disk w) (pending w).

(** Computations that read and change the world and may raise. *)
Definition M (A : Type) : Type := world → result A * world.

Definition ret {A} (a : A) : M A := λ w, (Ok a, w).

Definition bind {A B} (m : M A) (k : A → M B) : M B :=
  λ w, match m w with
       | (Ok a, w') => k a w'
       | (Raise e, w') => (Raise e, w')
       end.

Definition raise {A} (e : exn) : M A := λ w, (Raise e, w).

(** [try: body finally: handler] *)
Definition try_finally {A} (body : M A) (handler : M unit) : M A :=
  λ w, match body w with
       | (r, w') =>
           match handler w' with
           | (Ok _, w'') => (r, w'')
           | (Raise e, w'') => (Raise e, w'')
           end
       end.

(** [SELECT COUNT( * ) FROM usuarios] *)
Definition execute_count : M nat := λ w, (Ok (length (rows w)), w).

(** [DELETE FROM usuarios] *)
Definition execute_delete : M unit :=
  λ w, (Ok (), {| disk := disk w; pending := Some []; drawn := drawn w |}).

(** [INSERT INTO usuarios (...) VALUES (...)]: refused with
    [IntegrityError] when the id or the username is already present. *)
Definition execute_insert (r : row) : M unit :=
  λ w,
    let t := rows w in
    if bool_decide (uid r ∈ uid <$> t ∨ username r ∈ username <$> t)
    then (Raise IntegrityError,
          {| disk := disk w; pending := Some t; drawn := drawn w |})
    else (Ok (),
          {| disk := disk w; pending := Some (t ++ [r]); drawn := drawn w |}).

(** [conn.commit()] *)
Definition commit : M unit :=
  λ w, (Ok (), {| disk := rows w; pending := None; drawn := drawn w |}).

(** [conn.close()] *)
Definition close : M unit :=
  λ w, (Ok (), {| disk := disk w; pending := None; drawn := drawn w |}).

(** [for x in xs: body x] *)
Fixpoint for_each {A} (xs : list A) (body : A → M unit) : M unit :=
  match xs with
  | [] => ret ()
  | x :: xs' => bind (body x) (λ _, for_each xs' body)
  end.

End Sqlite.

Global Instance sqlite_ret : MRet Sqlite.M := @Sqlite.ret.
Global Instance sqlite_bind : MBind Sqlite.M := λ A B k m, Sqlite.bind m k.

(** ** The seed file

    [data/usuarios.json] holds a sequence of objects with the fields [id],
    [nombre], [rol] and [renta_mensual].  [SeedBad e] stands for an element
    on which the loop body raises [e] when it reads its fields (a missing
    key, or an element that is no object). *)
Inductive seed_item :=
  | SeedObj (id : Z) (nombre rol : pystr) (renta_mensual : QArith_base.Q)
  | SeedBad (e : exn).

(** What [open(DATA_PATH)] followed by [json.load] yields: the parsed
    sequence, or the I/O or parse error. *)
Abbreviation seed_file := (result (list seed_item)).

Definition load (data : seed_file) : Sqlite.M (list seed_item) :=
  match data with
  | Ok users_data => Sqlite.ret users_data
  | Raise e => Sqlite.raise e
  end.

(** ** bcrypt

    A bcrypt hash is the text of its settings, 29 characters holding the
    version, the cost and the salt, followed by the digest of the password
    under these settings.  [bcrypt_raw] is that digest; salts and hashes are
    ASCII, so the model keeps them as text on both sides of the source's
    [.decode("utf-8")] and [.encode("utf-8")]. *)
Section Bcrypt.
Variable bcrypt_raw : pystr → bytes → pystr.

(** [bcrypt.hashpw(password, salt)]; [salt] may be a whole hash, of which
    only the settings are read. *)
Definition hashpw (password : bytes) (salt : pystr) : pystr :=
  let settings := take 29 salt in
  settings ++ bcrypt_raw settings password.

(** [bcrypt.checkpw(password, hashed)] *)
Definition checkpw (password : bytes) (hashed : pystr) : bool :=
  bool_decide (hashpw password hashed = hashed).

End Bcrypt.

(** What a request handler produces: a response, an [HTTPException] that the
    framework turns into an error response, or an exception that nothing
    handles. *)
Inductive http (A : Type) :=
  | Response (content : A)
  | HTTPException (status_code : Z) (detail : string)
  | Unhandled (e : exn).
Arguments Response {A} content.
Arguments HTTPException {A} status_code detail.
Arguments Unhandled {A} e.

(** ** backend/app.py *)
Module App.
Section App.
Variable U : unicode.
Variable bcrypt_raw : pystr → bytes → pystr.
(** [salts k] is what the [k]-th call of [bcrypt.gensalt()] returns. *)
Variable salts : nat → pystr.

Definition _slugify (text : pystr) : pystr :=
  let text := normalize_NFKD U text in
  let text := filter (λ ch, combining U ch = 0) text in
  let text := Str.strip U (lower U text) in
  let text := Str.join (lit "_") (Str.split U text) in
  filter (λ ch, isalnum U ch ∨ ch = 95) text.

(** [f"{base}_{user['id']}"] with [base = _slugify(user["nombre"])] *)
Definition make_username (nombre : pystr) (id : Z) : pystr :=
  let base := _slugify nombre in
  base ++ lit "_" ++ str_of_int id.

Definition gensalt : Sqlite.M pystr :=
  λ w, (Ok (salts (Sqlite.drawn w)),
        {| Sqlite.disk := Sqlite.disk w; Sqlite.pending := Sqlite.pending w;
           Sqlite.drawn := S (Sqlite.drawn w) |}).

(** The body of the seeding loop. *)
Definition seed_user (user : seed_item) : Sqlite.M unit :=
  match user with
  | SeedBad e => Sqlite.raise e
  | SeedObj id nombre rol renta_mensual =>
      let username := make_username nombre id in
      salt ← gensalt;
      let password_hash := hashpw bcrypt_raw (lit "password") salt in
      Sqlite.execute_insert
        {| uid := id; nombre := nombre; rol := rol;
           renta_mensual := renta_mensual; username := username;
           password_hash := password_hash |}
  end.

(** [RESET_DB] is the environment variable of that name, [data] the content
    of the seed file.  An exception leaves the function before [commit] and
    before [close]. *)
Definition init_db (RESET_DB : option pystr) (data : seed_file)
    : Sqlite.M unit :=
  let reset_db := bool_decide (RESET_DB = Some (lit "1")) in
  (if reset_db then Sqlite.execute_delete ;; Sqlite.commit else mret ()) ;;
  count ← Sqlite.execute_count;
  (if decide (count = 0%nat) then
     users_data ← load data;
     Sqlite.for_each users_data seed_user ;;
     Sqlite.commit
   else mret ()) ;;
  Sqlite.close.

(** The rows of [SELECT id, nombre, rol, renta_mensual, username,
    password_hash FROM usuarios WHERE username = ?], then [fetchone]. *)
Definition _get_user_by_username (t : table) (name : pystr)
    : option pydict :=
  let row :=
    head ((λ r, (uid r, nombre r, rol r, renta_mensual r, username r,
                 password_hash r))
          <$> filter (λ r, username r = name) t) in
  match row with
  | None => None
  | Some (r0, r1, r2, r3, r4, r5) =>
      Some {[ "id" := VInt r0; "nombre" := VStr r1; "rol" := VStr r2;
              "renta_mensual" := VReal r3; "username" := VStr r4;
              "password_hash" := VStr r5 ]}
  end.

Definition _authenticate_user (t : table) (name password : pystr)
    : result (option pydict) :=
  let user := _get_user_by_username t name in
  if negb (truthy_dict user) then Ok None
  else
    match user with
    | None => Raise TypeError
    | Some user =>
        match user !! "password_hash" with
        | None => Raise KeyError
        | Some (VStr h) =>
            let ok := checkpw bcrypt_raw (encode_utf8 password) h in
            if ok then Ok (Some (delete "password_hash" user)) else Ok None
        | Some _ => Raise TypeError
        end
    end.

Definition _get_users_for_role (t : table) (current_user_id : Z)
    (current_role : pystr) : list pydict :=
  let project (r : row) := (uid r, nombre r, rol r, renta_mensual r) in
  let rows :=
    if decide (current_role = lit "admin") then
      project <$> t
    else if decide (current_role = lit "supervisor") then
      project <$> filter (λ r, rol r ∈ [lit "supervisor"; lit "usuario"]) t
    else if decide (current_role = lit "usuario") then
      project <$> filter (λ r, uid r = current_user_id) t
    else
      project <$> filter (λ r, False) t in
  (λ '(r0, r1, r2, r3),
     ({[ "id" := VInt r0; "nombre" := VStr r1; "rol" := VStr r2;
         "renta_mensual" := VReal r3 ]} : pydict)) <$> rows.

(** [POST /auth/login]: [req_username] and [req_password] are the two fields
    of the JSON body, [None] when absent.  The response carries the user and
    the cookies [user_id] and [role]. *)
Definition login (t : table) (req_username req_password : option pystr)
    : http (pydict * gmap string pystr) :=
  let name := Str.strip U (if truthy_str req_username
                           then default [] req_username else []) in
  let password := if truthy_str req_password
                  then default [] req_password else [] in
  match _authenticate_user t name password with
  | Raise e => Unhandled e
  | Ok user =>
      if negb (truthy_dict user) then HTTPException 401 "Credenciales invalidas"
      else
        match user with
        | None => Unhandled TypeError
        | Some user =>
            match user !! "id", user !! "rol" with
            | Some (VInt id), Some (VStr role) =>
                Response (user, {[ "user_id" := str_of_int id;
                                   "role" := role ]})
            | None, _ | _, None => Unhandled KeyError
            | _, _ => Unhandled TypeError
            end
        end
  end.

(** [GET /usuarios] with the two cookies of the request. *)
Definition usuarios (t : table) (user_id_cookie role_cookie : option pystr)
    : http (list pydict) :=
  if negb (truthy_str user_id_cookie) || negb (truthy_str role_cookie)
  then HTTPException 401 "No autenticado"
  else
    match user_id_cookie, role_cookie with
    | Some user_id_cookie, Some role_cookie =>
        match Str.int_of_str U user_id_cookie with
        | Ok id => Response (_get_users_for_role t id role_cookie)
        | Raise e => Unhandled e
        end
    | _, _ => Unhandled TypeError
    end.

(** [POST /auth/logout]: the request is not read; the response carries the
    message and deletes the cookies listed. *)
Definition logout : http (gmap string pystr * list string) :=
  Response ({[ "message" := lit "Logout OK" ]}, ["user_id"; "role"]).

End App.
End App.

(** ** backend/db.py *)
Module Db.
Section Db.
Variable U : unicode.

Definition TEST_PASSWORD_HASH : pystr :=
  lit "$2b$12$92IXUNpkjO0rOQ5byMi.Ye4oKoEa3Ro9llC/.og/at2.uheWG/igi".

(** [CREATE TABLE IF NOT EXISTS] leaves the rows alone; [conn.commit()]
    follows it. *)
Definition create_table : Sqlite.M unit := Sqlite.commit.

(** [f"{user['nombre'].lower().replace(' ', '_')}_{user['id']}"] *)
Definition make_username (nombre : pystr) (id : Z) : pystr :=
  Str.replace_char 32 (lit "_") (lower U nombre) ++ lit "_" ++ str_of_int id.

Definition seed_user (user : seed_item) : Sqlite.M unit :=
  match user with
  | SeedBad e => Sqlite.raise e
  | SeedObj id nombre rol renta_mensual =>
      let username := make_username nombre id in
      Sqlite.execute_insert
        {| uid := id; nombre := nombre; rol := rol;
           renta_mensual := renta_mensual; username := username;
           password_hash := TEST_PASSWORD_HASH |}
  end.

Definition init_db (data : seed_file) : Sqlite.M unit :=
  Sqlite.try_finally
    (create_table ;;
     count ← Sqlite.execute_count;
     if decide (count = 0%nat) then
       users_data ← load data;
       Sqlite.for_each users_data seed_user ;;
       Sqlite.commit
     else mret ())
    Sqlite.close.

End Db.
End Db.

(** ** backend/models.py *)
Module Models.

Definition get_user_by_username (t : table) (name : pystr) : option pydict :=
  let row :=
    head ((λ r, (uid r, nombre r, rol r, renta_mensual r, username r))
          <$> filter (λ r, username r = name) t) in
  match row with
  | None => None
  | Some (r0, r1, r2, r3, r4) =>
      Some {[ "id" := VInt r0; "nombre" := VStr r1; "rol" := VStr r2;
              "renta_mensual" := VReal r3; "username" := VStr r4 ]}
  end.

Definition get_user_auth_by_username (t : table) (name : pystr)
    : option pydict :=
  let row :=
    head ((λ r, (uid r, nombre r, rol r, renta_mensual r, username r,
                 password_hash r))
          <$> filter (λ r, username r = name) t) in
  match row with
  | None => None
  | Some (r0, r1, r2, r3, r4, r5) =>
      Some {[ "id" := VInt r0; "nombre" := VStr r1; "rol" := VStr r2;
              "renta_mensual" := VReal r3; "username" := VStr r4;
              "password_hash" := VStr r5 ]}
  end.

Definition get_users_for_role (t : table) (current_user_id : Z)
    (current_role : pystr) : list pydict :=
  let project (r : row) := (uid r, nombre r, rol r, renta_mensual r) in
  let rows :=
    if decide (current_role = lit "admin") then
      project <$> t
    else if decide (current_role = lit "supervisor") then
      project <$> filter (λ r, rol r ∈ [lit "supervisor"; lit "usuario"]) t
    else if decide (current_role = lit "usuario") then
      project <$> filter (λ r, uid r = current_user_id) t
    else
      project <$> filter (λ r, False) t in
  (λ '(r0, r1, r2, r3),
     ({[ "id" := VInt r0; "nombre" := VStr r1; "rol" := VStr r2;
         "renta_mensual" := VReal r3 ]} : pydict)) <$> rows.

End Models.

(** ** backend/auth.py *)
Module Auth.
Section Auth.
Variable bcrypt_raw : pystr → bytes → pystr.

Definition verify_password (password hashed : pystr) : bool :=
  checkpw bcrypt_raw (encode_utf8 password) hashed.

Definition authenticate_user (t : table) (name password : pystr)
    : result (option pydict) :=
  let user := Models.get_user_auth_by_username t name in
  if negb (truthy_dict user) then Ok None
  else
    match user with
    | None => Raise TypeError
    | Some user =>
        match user !! "password_hash" with
        | None => Raise KeyError
        | Some (VStr h) =>
            if verify_password password h
            then Ok (Some (delete "password_hash" user))
            else Ok None
        | Some _ => Raise TypeError
        end
    end.


End Auth.
End Auth.

(** ** Vocabulary of the specification *)

(** The public summary of a row: id, name, role and monthly income. *)
Definition summary (r : row) : pydict :=
  {[ "id" := VInt (uid r); "nombre" := VStr (nombre r);
     "rol" := VStr (rol r); "renta_mensual" := VReal (renta_mensual r) ]}.

(** The public user that a successful login returns. *)
Definition public_user (r : row) : pydict :=
  {[ "id" := VInt (uid r); "nombre" := VStr (nombre r);
     "rol" := VStr (rol r); "renta_mensual" := VReal (renta_mensual r);
     "username" := VStr (username r) ]}.

(** The record with its hash, as the lookup by username returns it. *)
Definition full_user (r : row) : pydict :=
  {[ "id" := VInt (uid r); "nombre" := VStr (nombre r);
     "rol" := VStr (rol r); "renta_mensual" := VReal (renta_mensual r);
     "username" := VStr (username r);
     "password_hash" := VStr (password_hash r) ]}.

(** [findByUsername] of the credential store. *)
Definition find_user (t : table) (name : pystr) : option row :=
  head (filter (λ r, username r = name) t).

(** What a run of a seeding operation leaves in the database file when it
    starts from the file content [t], with its outcome. *)
Definition durable (op : Sqlite.M unit) (t : table) : result unit * table :=
  let (r, w) := op (Sqlite.connect t) in (r, Sqlite.disk w).

(** The records of a seed sequence: the seed items that are objects. *)
Definition is_record (item : seed_item) : Prop :=
  match item with
  | SeedObj _ _ _ _ => True
  | SeedBad _ => False
  end.

Global Instance is_record_dec item : Decision (is_record item).
Proof. destruct item; simpl; apply _. Defined.

(** The full row that app.py inserts for a seed item, given the salt it
    draws, and the one that db.py inserts. *)
Definition app_row (U : unicode) (bcrypt_raw : pystr → bytes → pystr)
    (salt : pystr) (item : seed_item) : option row :=
  match item with
  | SeedObj id n r q =>
      Some {| uid := id; nombre := n; rol := r; renta_mensual := q;
              username := App.make_username U n id;
              password_hash := hashpw bcrypt_raw (lit "password") salt |}
  | SeedBad _ => None
  end.

Definition db_row (U : unicode) (item : seed_item) : option row :=
  match item with
  | SeedObj id n r q =>
      Some {| uid := id; nombre := n; rol := r; renta_mensual := q;
              username := Db.make_username U n id;
              password_hash := Db.TEST_PASSWORD_HASH |}
  | SeedBad _ => None
  end.

(** The rows of a whole seed sequence, the [k]-th item taking the [k]-th
    salt after the first [from]. *)
Fixpoint app_rows (U : unicode) (bcrypt_raw : pystr → bytes → pystr)
    (salts : nat → pystr) (from : nat) (items : list seed_item) : table :=
  match items with
  | [] => []
  | item :: items' =>
      option_list (app_row U bcrypt_raw (salts from) item)
      ++ app_rows U bcrypt_raw salts (S from) items'
  end.

Definition db_rows (U : unicode) (items : list seed_item) : table :=
  omap (db_row U) items.

(** *** The normalisation rule as the specification words it

    Strip diacritics, lowercase, collapse every run of whitespace and
    non-alphanumeric characters to a single separator, then append the id. *)
Module Spec.
Section Spec.
Variable U : unicode.

Definition strip_diacritics (text : pystr) : pystr :=
  filter (λ ch, combining U ch = 0) (normalize_NFKD U text).

Definition separates (ch : N) : bool := isspace U ch || negb (isalnum U ch).

(** [in_run] tells that the previous character already belonged to a run of
    separating characters. *)
Fixpoint collapse (in_run : bool) (text : pystr) : pystr :=
  match text with
  | [] => []
  | ch :: t =>
      if separates ch
      then (if in_run then collapse true t else 95 :: collapse true t)
      else ch :: collapse false t
  end.

Definition normalize (text : pystr) : pystr :=
  collapse false (lower U (strip_diacritics text)).

Definition deriveUsername (name : pystr) (id : Z) : pystr :=
  normalize name ++ lit "_" ++ str_of_int id.

(** The rule that app.py follows instead: whitespace around the name is
    dropped, every run of whitespace inside it becomes one ["_"], and every
    other character that is neither alphanumeric nor ["_"] is deleted.
    [seen] tells that a character of the name has been read, [gap] that
    whitespace has been read since. *)
Fixpoint squeeze (seen gap : bool) (text : pystr) : pystr :=
  match text with
  | [] => []
  | ch :: t =>
      if isspace U ch then squeeze seen seen t
      else
        let kept := if bool_decide (isalnum U ch ∨ ch = 95)
                    then [ch] else [] in
        (if gap then [95] else []) ++ kept ++ squeeze true false t
  end.

Definition slug (text : pystr) : pystr :=
  squeeze false false (lower U (strip_diacritics text)).

Definition appUsername (name : pystr) (id : Z) : pystr :=
  slug name ++ lit "_" ++ str_of_int id.

(** The rule that db.py follows: lowercase, every space character replaced
    by ["_"], nothing else touched. *)
Definition dbUsername (name : pystr) (id : Z) : pystr :=
  ((λ ch, if bool_decide (ch = 32) then 95 else ch) <$> lower U name)
  ++ lit "_" ++ str_of_int id.

End Spec.
End Spec.

(** *** Stand-ins for the external parts, used where a property is run on a
    concrete input *)
Module Stub.

(** A digest function in place of bcrypt's: any function will do where the
    property at hand does not depend on the digest. *)
Definition digest (settings : pystr) (password : bytes) : pystr :=
  reverse password.

(** Pairwise different salts of the right length. *)
Definition salts (k : nat) : pystr :=
  lit "$2b$12$" ++ replicate 21 46 ++ [65 + N.of_nat k].

(** The first user of the example below, as app.py stores it. *)
Definition jhon : row :=
  {| uid := 1; nombre := lit "Jhon Doe"; rol := lit "admin";
     renta_mensual := QArith_base.Qmake 1000 1;
     username := lit "jhon_doe_1";
     password_hash := hashpw digest (lit "password") (salts 0) |}.

(** The four users of the specification's example: one admin, one
    supervisor, two plain users. *)
Definition seed : list seed_item :=
  [SeedObj 1 (lit "Jhon Doe") (lit "admin") (QArith_base.Qmake 1000 1);
   SeedObj 2 (lit "Ana Soto") (lit "supervisor") (QArith_base.Qmake 900 1);
   SeedObj 3 (lit "Valentina Rios") (lit "usuario") (QArith_base.Qmake 800 1);
   SeedObj 4 (lit "Juan Perez") (lit "usuario") (QArith_base.Qmake 700 1)].

(** The store that app.py seeds from them. *)
Definition users : table :=
  (durable (App.init_db ucd digest salts None (Ok seed)) []).2.

(** The store that db.py seeds from them. *)
Definition db_users : table := (durable (Db.init_db ucd (Ok seed)) []).2.

(** A seed sequence whose third element repeats the id of the first. *)
Definition clashing_seed : list seed_item :=
  [SeedObj 1 (lit "Jhon Doe") (lit "admin") (QArith_base.Qmake 1000 1);
   SeedObj 2 (lit "Ana Soto") (lit "supervisor") (QArith_base.Qmake 900 1);
   SeedObj 1 (lit "Juan Perez") (lit "usuario") (QArith_base.Qmake 700 1)].

(** A digest function that agrees with bcrypt on one known answer: under
    the settings of [Db.TEST_PASSWORD_HASH], that is cost 12 and the salt
    [92IXUNpkjO0rOQ5byMi.Ye], the digest of ["password"] is
    [T742UL5un1LijB1o.1G7.n8cEHwAFgu].  The value was computed with a
    bcrypt implementation outside this development; it is recorded here,
    not proved. *)
Definition known_digest (settings : pystr) (password : bytes) : pystr :=
  if bool_decide (settings = lit "$2b$12$92IXUNpkjO0rOQ5byMi.Ye"
                  ∧ password = lit "password")
  then lit "T742UL5un1LijB1o.1G7.n8cEHwAFgu"
  else digest settings password.

End Stub.
(** *** Further vocabulary *)

(** The id of a seed record. *)
Definition item_id (item : seed_item) : option Z :=
  match item with
  | SeedObj id _ _ _ => Some id
  | SeedBad _ => None
  end.

(** The cookie jar of a client: a response stores the cookies it sets and
    removes the ones it deletes. *)
Definition jar_set (cookies jar : gmap string pystr) : gmap string pystr :=
  cookies ∪ jar.

Definition jar_delete (names : list string) (jar : gmap string pystr)
    : gmap string pystr :=
  foldr delete jar names.

(** A plain display name: words of ASCII letters and digits with single
    spaces between them.  [in_word] tells that the previous character was a
    letter or a digit. *)
Definition ascii_alnum (c : N) : bool :=
  Ucd.between 48 57 c || Ucd.between 65 90 c || Ucd.between 97 122 c.

Fixpoint plain_from (in_word : bool) (s : pystr) : bool :=
  match s with
  | [] => in_word
  | c :: t =>
      if c =? 32 then in_word && plain_from false t
      else ascii_alnum c && plain_from true t
  end.

Definition plain_name (s : pystr) : bool := plain_from false s.

(** The characters a slug is made of when the name lies below U+0100:
    [a-z], [0-9], ["_"], and the six letters without decomposition, sharp s,
    ae, eth, o with stroke, thorn and (from the micro sign) mu. *)
Definition slug_char (c : N) : bool :=
  Ucd.between 97 122 c || Ucd.between 48 57 c || (c =? 95)
  || bool_decide (c ∈ [223; 230; 240; 248; 254; 956]).

(** ** tests/test_roles.py

    The helper with which the test derives the username it logs in with. *)
Module Tests.
Section Tests.
Variable U : unicode.

(** [re.sub(r"[^a-z0-9]+", "_", s)]: every maximal run of characters
    outside [a-z0-9] becomes one ["_"].  [in_run] tells that the previous
    character belonged to such a run. *)
Fixpoint sub_runs (in_run : bool) (s : pystr) : pystr :=
  match s with
  | [] => []
  | c :: t =>
      if Ucd.between 97 122 c || Ucd.between 48 57 c then c :: sub_runs false t
      else if in_run then sub_runs true t
      else 95 :: sub_runs true t
  end.

(** [s.strip(chars)] *)
Fixpoint lstrip_chars (chars : pystr) (s : pystr) : pystr :=
  match s with
  | [] => []
  | c :: t => if bool_decide (c ∈ chars) then lstrip_chars chars t else s
  end.

Definition strip_chars (chars : pystr) (s : pystr) : pystr :=
  reverse (lstrip_chars chars (reverse (lstrip_chars chars s))).

(** [.encode("ascii", "ignore").decode("ascii")] drops every code point
    that is not ASCII. *)
Definition _slugify_nombre (nombre : pystr) : pystr :=
  let s := filter (λ c, c < 128) (normalize_NFKD U nombre) in
  let s := Str.strip U (lower U s) in
  strip_chars (lit "_") (sub_runs false s).

End Tests.
End Tests.

(** * Properties *)

(** Closes a decidable goal on concrete data by evaluation. *)
Ltac by_compute :=
  match goal with
  | |- ?P => apply (bool_decide_unpack P); vm_compute; exact I
  end.

(** ** Reading the store *)

Lemma full_user_hash r :
  full_user r !! "password_hash" = Some (VStr (password_hash r)).
Proof. reflexivity. Qed.

Lemma full_user_pop r : delete "password_hash" (full_user r) = public_user r.
Proof. reflexivity. Qed.

Lemma full_user_nonempty r : full_user r ≠ ∅.
Proof.
  intros H. apply (f_equal (λ m : pydict, m !! "id")) in H. discriminate H.
Qed.

Lemma truthy_full_user r : truthy_dict (Some (full_user r)) = true.
Proof. apply bool_decide_eq_true, full_user_nonempty. Qed.

Lemma app_lookup t name :
  App._get_user_by_username t name = full_user <$> find_user t name.
Proof.
  unfold App._get_user_by_username, find_user.
  destruct (filter _ t) as [|r l]; reflexivity.
Qed.

Lemma models_lookup t name :
  Models.get_user_auth_by_username t name = full_user <$> find_user t name.
Proof.
  unfold Models.get_user_auth_by_username, find_user.
  destruct (filter _ t) as [|r l]; reflexivity.
Qed.

(** Both authenticators compute the same function of the row found. *)
Lemma app_authenticate_spec raw t name password :
  App._authenticate_user raw t name password =
  match find_user t name with
  | None => Ok None
  | Some r =>
      if checkpw raw (encode_utf8 password) (password_hash r)
      then Ok (Some (public_user r)) else Ok None
  end.
Proof.
  unfold App._authenticate_user. rewrite app_lookup.
  destruct (find_user t name) as [r|]; [|reflexivity].
  change (full_user <$> Some r) with (Some (full_user r)). cbv zeta.
  rewrite truthy_full_user, full_user_hash, full_user_pop. reflexivity.
Qed.

Lemma auth_authenticate_spec raw t name password :
  Auth.authenticate_user raw t name password =
  App._authenticate_user raw t name password.
Proof.
  unfold Auth.authenticate_user, Auth.verify_password.
  rewrite models_lookup, app_authenticate_spec.
  destruct (find_user t name) as [r|]; [|reflexivity].
  change (full_user <$> Some r) with (Some (full_user r)). cbv zeta.
  rewrite truthy_full_user, full_user_hash, full_user_pop. reflexivity.
Qed.

Lemma models_listing_eq t caller_id caller_role :
  Models.get_users_for_role t caller_id caller_role =
  App._get_users_for_role t caller_id caller_role.
Proof. reflexivity. Qed.

Lemma listing_of_rows (rows : table) :
  (λ '(r0, r1, r2, r3),
     ({[ "id" := VInt r0; "nombre" := VStr r1; "rol" := VStr r2;
         "renta_mensual" := VReal r3 ]} : pydict))
  <$> ((λ r, (uid r, nombre r, rol r, renta_mensual r)) <$> rows)
  = summary <$> rows.
Proof. rewrite <- list_fmap_compose. reflexivity. Qed.

Lemma filter_none {A} (P : A → Prop) `{∀ x, Decision (P x)} (l : list A) :
  (∀ x, x ∈ l → ¬ P x) → filter P l = [].
Proof.
  induction l as [|x l IH]; intros Hl; [reflexivity|].
  rewrite filter_cons_False by (apply Hl; left).
  apply IH. intros y Hy. apply Hl. by right.
Qed.


Lemma listing_spec t caller_id caller_role :
  Models.get_users_for_role t caller_id caller_role =
  if decide (caller_role = lit "admin") then summary <$> t
  else if decide (caller_role = lit "supervisor") then
    summary <$> filter (λ r, rol r = lit "supervisor" ∨ rol r = lit "usuario") t
  else if decide (caller_role = lit "usuario") then
    summary <$> filter (λ r, uid r = caller_id) t
  else [].
Proof.
  unfold Models.get_users_for_role. cbv zeta.
  repeat case_decide; rewrite listing_of_rows; try reflexivity.
  - f_equal. apply list_filter_iff. intros r.
    rewrite !elem_of_cons, elem_of_nil. tauto.
  - rewrite filter_none by tauto. reflexivity.
Qed.



Lemma summary_no_hash r : summary r !! "password_hash" = None.
Proof. reflexivity. Qed.

Lemma public_user_no_hash r : public_user r !! "password_hash" = None.
Proof. reflexivity. Qed.

Lemma listing_no_hash t caller_id caller_role :
  Forall (λ d : pydict, d !! "password_hash" = None)
    (Models.get_users_for_role t caller_id caller_role).
Proof.
  rewrite listing_spec.
  repeat case_decide; try apply Forall_nil_2;
    apply Forall_fmap, Forall_forall; intros r _; apply summary_no_hash.
Qed.

(** C2. No object that a successful authentication returns, and no element
    of a visibility listing, has the field [password_hash]; this holds for
    the authenticators and the listings of both implementations. *)
Theorem no_secret_leakage (bcrypt_raw : pystr → bytes → pystr) (t : table)
    (name password : pystr) (caller_id : Z) (caller_role : pystr) :
  (∀ user, App._authenticate_user bcrypt_raw t name password = Ok (Some user) →
           user !! "password_hash" = None)
  ∧ (∀ user, Auth.authenticate_user bcrypt_raw t name password = Ok (Some user) →
             user !! "password_hash" = None)
  ∧ Forall (λ d : pydict, d !! "password_hash" = None)
      (App._get_users_for_role t caller_id caller_role)
  ∧ Forall (λ d : pydict, d !! "password_hash" = None)
      (Models.get_users_for_role t caller_id caller_role).
Proof.
  assert (∀ user, App._authenticate_user bcrypt_raw t name password
                  = Ok (Some user) → user !! "password_hash" = None) as Happ.
  { intros user. rewrite app_authenticate_spec.
    destruct (find_user t name) as [r|]; [|discriminate].
    destruct (checkpw _ _ _); [|discriminate].
    intros [= <-]. apply public_user_no_hash. }
  split; [exact Happ|]. split.
  - intros user. rewrite auth_authenticate_spec. apply Happ.
  - split; apply listing_no_hash.
Qed.

Lemma no_secret_leakage_witness :
  App._authenticate_user Stub.digest Stub.users (lit "jhon_doe_1")
    (lit "password") = Ok (Some (public_user Stub.jhon))
  ∧ public_user Stub.jhon !! "password_hash" = None.
Proof.
  assert (App._authenticate_user Stub.digest Stub.users (lit "jhon_doe_1")
            (lit "password") = Ok (Some (public_user Stub.jhon))) as Hlogin.
  { vm_compute. reflexivity. }
  split; [exact Hlogin|].
  exact (proj1 (no_secret_leakage Stub.digest Stub.users (lit "jhon_doe_1")
                  (lit "password") 0 []) _ Hlogin).
Defined.



(** C10. [GET /usuarios] with both cookies present and non-empty, the
    [user_id] cookie being no decimal integer literal: [int] raises
    [ValueError], which nothing handles, so the handler returns neither a
    listing nor the 401 "No autenticado". *)
Theorem usuarios_non_numeric_cookie (U : unicode) (t : table)
    (user_id_cookie role_cookie : pystr) :
  user_id_cookie ≠ [] →
  role_cookie ≠ [] →
  (∀ id, Str.int_of_str U user_id_cookie ≠ Ok id) →
  App.usuarios U t (Some user_id_cookie) (Some role_cookie)
  = Unhandled ValueError
  ∧ (∀ listing, App.usuarios U t (Some user_id_cookie) (Some role_cookie)
                ≠ Response listing)
  ∧ App.usuarios U t (Some user_id_cookie) (Some role_cookie)
    ≠ HTTPException 401 "No autenticado".
Proof.
  intros Hid Hrole Hint.
  assert (App.usuarios U t (Some user_id_cookie) (Some role_cookie)
          = Unhandled ValueError) as ->; [|by repeat split].
  unfold App.usuarios, truthy_str.
  rewrite !bool_decide_eq_true_2 by done. simpl.
  unfold Str.int_of_str in *.
  destruct (match Str.strip U user_id_cookie with
            | [] => _ | _ => _ end) as [n|]; [|reflexivity].
  by destruct (Hint n).
Qed.

Lemma usuarios_non_numeric_cookie_witness :
  lit "abc" ≠ [] ∧ lit "admin" ≠ []
  ∧ (∀ id, Str.int_of_str ucd (lit "abc") ≠ Ok id)
  ∧ App.usuarios ucd Stub.users (Some (lit "abc")) (Some (lit "admin"))
    = Unhandled ValueError.
Proof.
  assert (∀ id, Str.int_of_str ucd (lit "abc") ≠ Ok id) as Hint.
  { intros id. vm_compute. discriminate. }
  split; [discriminate|]. split; [discriminate|]. split; [exact Hint|].
  apply (usuarios_non_numeric_cookie ucd Stub.users (lit "abc") (lit "admin"));
    [discriminate | discriminate | exact Hint].
Defined.

(** ** Seeding *)

Lemma keys_ok_snoc (t : table) (r : row) :
  keys_ok t → uid r ∉ (uid <$> t) → username r ∉ (username <$> t) →
  keys_ok (t ++ [r]).
Proof.
  intros [Hid Hname] Hr1 Hr2. unfold keys_ok. rewrite !fmap_app. simpl.
  split; apply NoDup_app; (split; [done|]);
    (split; [|apply NoDup_singleton]);
    intros x Hx ->%list_elem_of_singleton; done.
Qed.

Lemma execute_insert_cases (r : row) (w : Sqlite.world) res w' :
  Sqlite.execute_insert r w = (res, w') →
  Sqlite.disk w' = Sqlite.disk w
  ∧ Sqlite.drawn w' = Sqlite.drawn w
  ∧ (match res with
     | Ok _ => Sqlite.rows w' = Sqlite.rows w ++ [r]
               ∧ (uid r ∉ uid <$> Sqlite.rows w)
               ∧ (username r ∉ username <$> Sqlite.rows w)
     | Raise e => e = IntegrityError ∧ Sqlite.rows w' = Sqlite.rows w
     end).
Proof.
  unfold Sqlite.execute_insert. case_bool_decide as Hdup; intros [= <- <-];
    (split; [reflexivity|]); (split; [reflexivity|]).
  - split; reflexivity.
  - split; [reflexivity|]. tauto.
Qed.


(** One turn of the seeding loop of app.py. *)
Lemma app_seed_user_cases U raw salts (item : seed_item) (w : Sqlite.world)
    res w' :
  App.seed_user U raw salts item w = (res, w') →
  Sqlite.disk w' = Sqlite.disk w
  ∧ (match res with
     | Ok _ =>
         ∃ r, app_row U raw (salts (Sqlite.drawn w)) item = Some r
              ∧ Sqlite.rows w' = Sqlite.rows w ++ [r]
              ∧ Sqlite.drawn w' = S (Sqlite.drawn w)
              ∧ (uid r ∉ uid <$> Sqlite.rows w)
              ∧ (username r ∉ username <$> Sqlite.rows w)
     | Raise _ => True
     end).
Proof.
  destruct item as [id n r q|e]; simpl.
  - unfold mbind, sqlite_bind, Sqlite.bind, App.gensalt.
    intros (Hd & Hn & Hres)%execute_insert_cases.
    split; [exact Hd|]. destruct res as [[]|]; [|exact I].
    destruct Hres as (Hrows & Hf1 & Hf2). eexists. split; [reflexivity|].
    split; [exact Hrows|]. split; [exact Hn|]. split; [exact Hf1 | exact Hf2].
  - intros [= <- <-]. auto.
Qed.

(** The seeding loop of app.py: the file content is never touched, and a
    loop that completes has appended the row of every item. *)
Lemma app_loop_spec U raw salts (items : list seed_item) (w : Sqlite.world)
    res w' :
  Sqlite.for_each items (App.seed_user U raw salts) w = (res, w') →
  Sqlite.disk w' = Sqlite.disk w
  ∧ (match res with
     | Ok _ =>
         Forall is_record items
         ∧ Sqlite.rows w'
           = Sqlite.rows w ++ app_rows U raw salts (Sqlite.drawn w) items
         ∧ (keys_ok (Sqlite.rows w) → keys_ok (Sqlite.rows w'))
     | Raise _ => True
     end).
Proof.
  revert w. induction items as [|item items IH]; intros w; simpl.
  - intros [= <- <-]. rewrite app_nil_r. auto.
  - unfold Sqlite.bind at 1.
    destruct (App.seed_user U raw salts item w) as [[[]|e] w1] eqn:Hitem;
      apply app_seed_user_cases in Hitem as [Hd Hitem].
    + intros [Hdisk Hres]%IH. split; [congruence|].
      destruct res as [[]|]; [|exact I].
      destruct Hitem as (r & Hr & Hrows & Hn & Hf1 & Hf2).
      destruct Hres as (Hrec & Hrows' & Hkeys).
      split; [constructor; [by destruct item | exact Hrec]|].
      split; [by rewrite Hrows', Hrows, Hn, Hr, <- app_assoc|].
      intros Hk. apply Hkeys. rewrite Hrows. by apply keys_ok_snoc.
    + intros [= <- <-]. auto.
Qed.

(** One turn of the seeding loop of db.py. *)
Lemma db_seed_user_cases U (item : seed_item) (w : Sqlite.world) res w' :
  Db.seed_user U item w = (res, w') →
  Sqlite.disk w' = Sqlite.disk w
  ∧ (match res with
     | Ok _ =>
         ∃ r, db_row U item = Some r
              ∧ Sqlite.rows w' = Sqlite.rows w ++ [r]
              ∧ (uid r ∉ uid <$> Sqlite.rows w)
              ∧ (username r ∉ username <$> Sqlite.rows w)
     | Raise _ => True
     end).
Proof.
  destruct item as [id n r q|e]; simpl.
  - intros (Hd & Hn & Hres)%execute_insert_cases.
    split; [exact Hd|]. destruct res as [[]|]; [|exact I].
    destruct Hres as (Hrows & Hf1 & Hf2). eexists. split; [reflexivity|].
    split; [exact Hrows|]. split; [exact Hf1 | exact Hf2].
  - intros [= <- <-]. auto.
Qed.

Lemma db_rows_cons U item items :
  db_rows U (item :: items) = option_list (db_row U item) ++ db_rows U items.
Proof. unfold db_rows. simpl. destruct (db_row U item); reflexivity. Qed.

Lemma db_loop_spec U (items : list seed_item) (w : Sqlite.world) res w' :
  Sqlite.for_each items (Db.seed_user U) w = (res, w') →
  Sqlite.disk w' = Sqlite.disk w
  ∧ (match res with
     | Ok _ =>
         Forall is_record items
         ∧ Sqlite.rows w' = Sqlite.rows w ++ db_rows U items
         ∧ (keys_ok (Sqlite.rows w) → keys_ok (Sqlite.rows w'))
     | Raise _ => True
     end).
Proof.
  revert w. induction items as [|item items IH]; intros w;
    cbn [Sqlite.for_each].
  - intros [= <- <-]. change (db_rows U []) with (@nil row).
    rewrite app_nil_r. auto.
  - unfold Sqlite.bind at 1.
    destruct (Db.seed_user U item w) as [[[]|e] w1] eqn:Hitem;
      apply db_seed_user_cases in Hitem as [Hd Hitem].
    + intros [Hdisk Hres]%IH. split; [congruence|].
      destruct res as [[]|]; [|exact I].
      destruct Hitem as (r & Hr & Hrows & Hf1 & Hf2).
      destruct Hres as (Hrec & Hrows' & Hkeys).
      split; [constructor; [by destruct item | exact Hrec]|].
      split; [by rewrite Hrows', Hrows, db_rows_cons, Hr, <- app_assoc|].
      intros Hk. apply Hkeys. rewrite Hrows. by apply keys_ok_snoc.
    + intros [= <- <-]. auto.
Qed.

Lemma keys_ok_nil : keys_ok [].
Proof. split; apply NoDup_nil_2. Qed.

(** What a run of app.py's [init_db] leaves behind: a populated store is
    left alone unless [RESET_DB] is ["1"]; otherwise the run either raises
    and leaves the store empty, or commits the rows of all seed items. *)
Lemma app_init_db_cases U raw salts env data (t : table) res t' :
  durable (App.init_db U raw salts env data) t = (res, t') →
  (env ≠ Some (lit "1") ∧ t ≠ [] ∧ res = Ok () ∧ t' = t)
  ∨ ((env = Some (lit "1") ∨ t = [])
     ∧ ((∃ e, res = Raise e ∧ t' = [])
        ∨ (∃ items, data = Ok items ∧ Forall is_record items ∧ res = Ok ()
                    ∧ t' = app_rows U raw salts 0 items ∧ keys_ok t'))).
Proof.
  unfold durable, App.init_db, mbind, sqlite_bind, mret, sqlite_ret.
  set (w0 := {| Sqlite.disk := []; Sqlite.pending := None;
                Sqlite.drawn := 0 |}).
  assert (∀ w, Sqlite.disk w = [] → Sqlite.pending w = None →
               Sqlite.drawn w = 0%nat →
    ∀ res t',
    (let (r, w') :=
       Sqlite.bind
         (Sqlite.bind (load data) (λ users_data,
            Sqlite.bind (Sqlite.for_each users_data (App.seed_user U raw salts))
              (λ _, Sqlite.commit)))
         (λ _, Sqlite.close) w in (r, Sqlite.disk w')) = (res, t') →
    (∃ e, res = Raise e ∧ t' = [])
    ∨ (∃ items, data = Ok items ∧ Forall is_record items ∧ res = Ok ()
                ∧ t' = app_rows U raw salts 0 items ∧ keys_ok t')) as Hseed.
  { intros w Hdisk Hpend Hdrawn res0 t0. unfold Sqlite.bind.
    destruct data as [items|e]; simpl.
    - destruct (Sqlite.for_each items _ w) as [[[]|e] w1] eqn:Hloop;
        apply app_loop_spec in Hloop as [Hd Hloop]; simpl.
      + intros [= <- <-]. right. exists items.
        destruct Hloop as (Hrec & Hrows & Hkeys).
        assert (Sqlite.rows w = []) as Hw
          by (unfold Sqlite.rows; by rewrite Hpend, Hdisk).
        rewrite Hw, Hdrawn in *. simpl in Hrows.
        split; [done|]. split; [done|]. split; [done|]. split; [done|].
        apply Hkeys, keys_ok_nil.
      + intros [= <- <-]. left. exists e. split; [done|]. congruence.
    - intros [= <- <-]. left. eauto. }
  unfold Sqlite.bind at 1 2. case_bool_decide as Henv.
  - simpl. intros H. right. split; [by left|].
    apply (Hseed w0); done.
  - simpl. destruct t as [|r0 t].
    + simpl. intros H. right. split; [by right|].
      apply (Hseed w0); done.
    + simpl. intros [= <- <-]. left. done.
Qed.

(** The same for db.py, which has no reset. *)
Lemma db_init_db_cases U data (t : table) res t' :
  durable (Db.init_db U data) t = (res, t') →
  (t ≠ [] ∧ res = Ok () ∧ t' = t)
  ∨ (t = []
     ∧ ((∃ e, res = Raise e ∧ t' = [])
        ∨ (∃ items, data = Ok items ∧ Forall is_record items ∧ res = Ok ()
                    ∧ t' = db_rows U items ∧ keys_ok t'))).
Proof.
  unfold durable, Db.init_db, Db.create_table, Sqlite.try_finally,
    mbind, sqlite_bind, mret, sqlite_ret.
  unfold Sqlite.bind at 1 2. simpl. destruct t as [|r0 t]; simpl.
  - intros H. right. split; [done|]. revert H.
    set (w0 := {| Sqlite.disk := []; Sqlite.pending := None;
                  Sqlite.drawn := 0 |}).
    unfold Sqlite.bind. destruct data as [items|e]; simpl.
    + change (Sqlite.rows (Sqlite.connect [])) with (@nil row). fold w0.
      destruct (Sqlite.for_each items _ w0) as [[[]|e] w1] eqn:Hloop;
        apply db_loop_spec in Hloop as [Hd Hloop]; simpl.
      * intros [= <- <-]. right. exists items.
        destruct Hloop as (Hrec & Hrows & Hkeys). simpl in Hrows.
        split; [done|]. split; [done|]. split; [done|]. split; [done|].
        apply Hkeys, keys_ok_nil.
      * intros [= <- <-]. left. exists e. split; [done|]. exact Hd.
    + intros [= <- <-]. left. eauto.
  - intros [= <- <-]. left. done.
Qed.

Lemma app_rows_length U raw salts from items :
  Forall is_record items →
  length (app_rows U raw salts from items) = length items.
Proof.
  intros Hrec. revert from.
  induction Hrec as [|item items Hitem _ IH]; intros from; [reflexivity|].
  destruct item; [|done]. simpl. by rewrite IH.
Qed.

Lemma db_rows_length U items :
  Forall is_record items → length (db_rows U items) = length items.
Proof.
  induction 1 as [|item items Hitem _ IH]; [reflexivity|].
  rewrite db_rows_cons. destruct item; [|done]. simpl. by rewrite IH.
Qed.

(** Whether app.py's loop completes does not depend on the salts drawn:
    the constraints look at ids and usernames only. *)
Lemma app_loop_salts U raw s1 s2 (items : list seed_item)
    (w1 w2 : Sqlite.world) :
  (λ r, (uid r, username r)) <$> Sqlite.rows w1
  = (λ r, (uid r, username r)) <$> Sqlite.rows w2 →
  (Sqlite.for_each items (App.seed_user U raw s1) w1).1
  = (Sqlite.for_each items (App.seed_user U raw s2) w2).1.
Proof.
  revert w1 w2. induction items as [|item items IH]; intros w1 w2 Hkeys;
    [reflexivity|].
  cbn [Sqlite.for_each]. unfold Sqlite.bind.
  destruct item as [id n r q|e]; [|reflexivity].
  unfold App.seed_user, mbind, sqlite_bind, Sqlite.bind, App.gensalt,
    Sqlite.execute_insert.
  cbn [uid username].
  change (Sqlite.rows {| Sqlite.disk := Sqlite.disk w1;
                         Sqlite.pending := Sqlite.pending w1;
                         Sqlite.drawn := S (Sqlite.drawn w1) |})
    with (Sqlite.rows w1).
  change (Sqlite.rows {| Sqlite.disk := Sqlite.disk w2;
                         Sqlite.pending := Sqlite.pending w2;
                         Sqlite.drawn := S (Sqlite.drawn w2) |})
    with (Sqlite.rows w2).
  assert (uid <$> Sqlite.rows w1 = uid <$> Sqlite.rows w2) as Hu.
  { apply (f_equal (fmap fst)) in Hkeys.
    by rewrite <- !list_fmap_compose in Hkeys. }
  assert (username <$> Sqlite.rows w1 = username <$> Sqlite.rows w2) as Hn.
  { apply (f_equal (fmap snd)) in Hkeys.
    by rewrite <- !list_fmap_compose in Hkeys. }
  rewrite Hu, Hn. case_bool_decide; [reflexivity|].
  apply IH. unfold Sqlite.rows. cbn [Sqlite.pending default].
  fold (Sqlite.rows w1). fold (Sqlite.rows w2). unfold Datatypes.id.
  rewrite !fmap_app. by rewrite Hkeys.
Qed.

Lemma app_init_db_salts U raw s1 s2 env data (t : table) :
  (durable (App.init_db U raw s1 env data) t).1
  = (durable (App.init_db U raw s2 env data) t).1.
Proof.
  unfold durable, App.init_db, mbind, sqlite_bind, mret, sqlite_ret.
  unfold Sqlite.bind at 1 2 7 8.
  case_bool_decide; simpl.
  - unfold Sqlite.bind. destruct data as [items|e]; [|reflexivity]. simpl.
    unfold Sqlite.connect.
    cbn [Sqlite.rows Sqlite.pending Sqlite.disk default from_option
         Datatypes.id].
    set (w0 := {| Sqlite.disk := []; Sqlite.pending := None;
                  Sqlite.drawn := 0 |}).
    pose proof (app_loop_salts U raw s1 s2 items w0 w0 eq_refl) as Hres.
    destruct (Sqlite.for_each items (App.seed_user U raw s1) w0) as [r1 w1].
    destruct (Sqlite.for_each items (App.seed_user U raw s2) w0) as [r2 w2].
    simpl in Hres. subst r2. by destruct r1.
  - destruct t as [|r0 t]; simpl; [|reflexivity].
    unfold Sqlite.bind. destruct data as [items|e]; [|reflexivity]. simpl.
    unfold Sqlite.connect.
    cbn [Sqlite.rows Sqlite.pending Sqlite.disk default from_option
         Datatypes.id].
    set (w0 := {| Sqlite.disk := []; Sqlite.pending := None;
                  Sqlite.drawn := 0 |}).
    pose proof (app_loop_salts U raw s1 s2 items w0 w0 eq_refl) as Hres.
    destruct (Sqlite.for_each items (App.seed_user U raw s1) w0) as [r1 w1].
    destruct (Sqlite.for_each items (App.seed_user U raw s2) w0) as [r2 w2].
    simpl in Hres. subst r2. by destruct r1.
Qed.

(** The hashes that app.py stores are those of the salts drawn, in order. *)
Lemma app_rows_hashes U raw salts from items :
  Forall is_record items →
  password_hash <$> app_rows U raw salts from items
  = (λ k, hashpw raw (lit "password") (salts k)) <$> seq from (length items).
Proof.
  intros Hrec. revert from.
  induction Hrec as [|item items Hitem _ IH]; intros from; [reflexivity|].
  destruct item; [|done]. simpl. by rewrite IH.
Qed.

(** A hash starts with its salt, so different salts give different hashes. *)
Lemma hashpw_salt_inj raw (p1 p2 s1 s2 : pystr) :
  length s1 = 29%nat → length s2 = 29%nat →
  hashpw raw p1 s1 = hashpw raw p2 s2 → s1 = s2.
Proof.
  intros H1 H2. unfold hashpw. rewrite !take_ge by lia.
  intros H. apply app_inj_1 in H as [? _]; [done|]. by rewrite H1, H2.
Qed.

Lemma db_rows_hash U items :
  Forall (λ r, password_hash r = Db.TEST_PASSWORD_HASH) (db_rows U items).
Proof.
  induction items as [|item items IH]; [constructor|].
  rewrite db_rows_cons. destruct item; simpl; [constructor|]; done.
Qed.

Lemma db_seeded_hash U data :
  Forall (λ r, password_hash r = Db.TEST_PASSWORD_HASH)
    (durable (Db.init_db U data) []).2.
Proof.
  destruct (durable (Db.init_db U data) []) as [res t'] eqn:Hrun.
  apply db_init_db_cases in Hrun
    as [(Hne & _)|(_ & [(e & _ & ->)|(items & _ & _ & _ & -> & _)])];
    simpl; [done | constructor | apply db_rows_hash].
Qed.

(** C4, as amended.  After app.py has seeded an empty store, the stored
    hashes are pairwise different whenever the salts that [bcrypt.gensalt]
    returned are (a hash starts with its salt); db.py gives every seeded
    user the one constant [TEST_PASSWORD_HASH]. *)
Theorem seeded_hashes U raw salts env (items : list seed_item) (t' : table) :
  (∀ i j, (i < length items)%nat → (j < length items)%nat →
          salts i = salts j → i = j) →
  (∀ i, (i < length items)%nat → length (salts i) = 29%nat) →
  durable (App.init_db U raw salts env (Ok items)) [] = (Ok (), t') →
  length t' = length items
  ∧ NoDup (password_hash <$> t')
  ∧ Forall (λ r, password_hash r = Db.TEST_PASSWORD_HASH)
      (durable (Db.init_db U (Ok items)) []).2.
Proof.
  intros Hinj Hlen Hrun.
  apply app_init_db_cases in Hrun
    as [(_ & Hne & _)|(_ & [(e & He & _)|(items' & Hdata & Hrec & _ & -> & _)])];
    [done | done |].
  injection Hdata as <-.
  split; [by apply app_rows_length|].
  split; [|by apply db_seeded_hash].
  rewrite app_rows_hashes by done.
  apply NoDup_fmap_2_strong; [|apply NoDup_seq].
  intros i j Hi%elem_of_seq Hj%elem_of_seq Hh.
  apply Hinj; [lia | lia |].
  apply hashpw_salt_inj in Hh; [done | |]; apply Hlen; lia.
Qed.

Lemma stub_salts_inj i j : Stub.salts i = Stub.salts j → i = j.
Proof.
  unfold Stub.salts. intros H. do 2 apply app_inv_head in H.
  injection H. lia.
Qed.

Lemma seeded_hashes_witness :
  durable (App.init_db ucd Stub.digest Stub.salts None (Ok Stub.seed)) []
  = (Ok (), Stub.users)
  ∧ length Stub.users = 4%nat
  ∧ NoDup (password_hash <$> Stub.users).
Proof.
  assert (durable (App.init_db ucd Stub.digest Stub.salts None (Ok Stub.seed))
            [] = (Ok (), Stub.users)) as Hrun.
  { vm_compute. reflexivity. }
  split; [exact Hrun|].
  destruct (seeded_hashes ucd Stub.digest Stub.salts None Stub.seed Stub.users)
    as (Hlen & Hnd & _).
  - intros i j _ _. apply stub_salts_inj.
  - intros i _. reflexivity.
  - exact Hrun.
  - split; [exact Hlen | exact Hnd].
Defined.

(** C4 as stated fails on db.py: its four seeded users share one hash. *)
Lemma db_seed_shares_hash :
  (2 ≤ length Stub.db_users)%nat
  ∧ ¬ NoDup (password_hash <$> Stub.db_users).
Proof.
  split; [vm_compute; lia|].
  intros Hnd. apply (bool_decide_pack _) in Hnd. vm_compute in Hnd. exact Hnd.
Qed.

Lemma app_init_db_noop U raw salts env data (t : table) :
  env ≠ Some (lit "1") → t ≠ [] →
  durable (App.init_db U raw salts env data) t = (Ok (), t).
Proof.
  intros Henv Ht.
  destruct (durable (App.init_db U raw salts env data) t) as [res t'] eqn:Hrun.
  apply app_init_db_cases in Hrun as [(_ & _ & -> & ->)|([?|?] & _)]; done.
Qed.

Lemma db_init_db_noop U data (t : table) :
  t ≠ [] → durable (Db.init_db U data) t = (Ok (), t).
Proof.
  intros Ht.
  destruct (durable (Db.init_db U data) t) as [res t'] eqn:Hrun.
  apply db_init_db_cases in Hrun as [(_ & -> & ->)|(? & _)]; done.
Qed.

(** With [RESET_DB=1] the content of the store does not matter: the run is
    the run on an empty store. *)
Lemma app_init_db_reset U raw salts data (t : table) :
  durable (App.init_db U raw salts (Some (lit "1")) data) t
  = durable (App.init_db U raw salts (Some (lit "1")) data) [].
Proof. reflexivity. Qed.

Lemma app_init_db_again U raw salts salts' env data (t : table) :
  env ≠ Some (lit "1") →
  (durable (App.init_db U raw salts' env data)
     (durable (App.init_db U raw salts env data) t).2).2
  = (durable (App.init_db U raw salts env data) t).2.
Proof.
  intros Henv.
  destruct (decide ((durable (App.init_db U raw salts env data) t).2 = []))
    as [Hnil|Hne]; [|by rewrite app_init_db_noop].
  assert (t = []) as ->.
  { destruct (decide (t = [])) as [|Ht]; [done|].
    by rewrite app_init_db_noop in Hnil. }
  rewrite Hnil.
  pose proof (app_init_db_salts U raw salts salts' env data []) as Hsalts.
  destruct (durable (App.init_db U raw salts env data) []) as [res1 t1] eqn:H1.
  destruct (durable (App.init_db U raw salts' env data) []) as [res2 t2] eqn:H2.
  simpl in *. subst res2 t1.
  apply app_init_db_cases in H1 as [(_ & ? & _)|(_ & H1)]; [done|].
  apply app_init_db_cases in H2
    as [(_ & ? & _)|(_ & [(e & _ & Ht2)|(items & Hdata & Hrec & Hres & Ht2 & _)])];
    [done | done |].
  destruct H1 as [(e & He & _)|(items' & Hdata' & _ & _ & Hnil & _)];
    [congruence|].
  rewrite Hdata in Hdata'. injection Hdata' as <-.
  apply (f_equal length) in Hnil. rewrite app_rows_length in Hnil by done.
  destruct items; [done | discriminate].
Qed.

Lemma db_init_db_again U data (t : table) :
  (durable (Db.init_db U data) (durable (Db.init_db U data) t).2).2
  = (durable (Db.init_db U data) t).2.
Proof.
  destruct (decide ((durable (Db.init_db U data) t).2 = []))
    as [Hnil|Hne]; [|by rewrite db_init_db_noop].
  assert (t = []) as ->.
  { destruct (decide (t = [])) as [|Ht]; [done|].
    by rewrite db_init_db_noop in Hnil. }
  by rewrite Hnil.
Qed.

Lemma app_init_db_keys U raw salts env data (t : table) :
  keys_ok t → keys_ok (durable (App.init_db U raw salts env data) t).2.
Proof.
  intros Hk.
  destruct (durable (App.init_db U raw salts env data) t) as [res t'] eqn:Hrun.
  apply app_init_db_cases in Hrun
    as [(_ & _ & _ & ->)|(_ & [(e & _ & ->)|(items & _ & _ & _ & _ & Hk')])];
    [done | apply keys_ok_nil | done].
Qed.

Lemma db_init_db_keys U data (t : table) :
  keys_ok t → keys_ok (durable (Db.init_db U data) t).2.
Proof.
  intros Hk.
  destruct (durable (Db.init_db U data) t) as [res t'] eqn:Hrun.
  apply db_init_db_cases in Hrun
    as [(_ & _ & ->)|(_ & [(e & _ & ->)|(items & _ & _ & _ & _ & Hk')])];
    [done | apply keys_ok_nil | done].
Qed.

(** C6, as amended.  Seeding is idempotent where [RESET_DB] is not ["1"]:
    on a store that holds a record, db.py's [init_db], and app.py's when
    [RESET_DB] is not ["1"], insert nothing and leave the store as it is; a
    second run in succession leaves what the first left; and the usernames
    (and ids) of the store stay free of duplicates in every run.  With
    [RESET_DB=1], app.py's [init_db] empties the table first and seeds it as
    it seeds an empty store. *)
Theorem seeding_idempotent U raw salts salts' env data (t : table) :
  (t ≠ [] → durable (Db.init_db U data) t = (Ok (), t))
  ∧ (t ≠ [] → env ≠ Some (lit "1") →
     durable (App.init_db U raw salts env data) t = (Ok (), t))
  ∧ (durable (Db.init_db U data) (durable (Db.init_db U data) t).2).2
    = (durable (Db.init_db U data) t).2
  ∧ (env ≠ Some (lit "1") →
     (durable (App.init_db U raw salts' env data)
        (durable (App.init_db U raw salts env data) t).2).2
     = (durable (App.init_db U raw salts env data) t).2)
  ∧ (keys_ok t →
     keys_ok (durable (Db.init_db U data) t).2
     ∧ keys_ok (durable (App.init_db U raw salts env data) t).2)
  ∧ durable (App.init_db U raw salts (Some (lit "1")) data) t
    = durable (App.init_db U raw salts (Some (lit "1")) data) [].
Proof.
  split; [apply db_init_db_noop|].
  split; [intros; by apply app_init_db_noop|].
  split; [apply db_init_db_again|].
  split; [apply app_init_db_again|].
  split; [|apply app_init_db_reset].
  intros Hk. split; [by apply db_init_db_keys | by apply app_init_db_keys].
Qed.

Lemma seeding_idempotent_witness :
  Stub.users ≠ []
  ∧ durable (Db.init_db ucd (Ok Stub.seed)) Stub.users = (Ok (), Stub.users)
  ∧ durable (App.init_db ucd Stub.digest Stub.salts None (Ok Stub.seed))
      Stub.users = (Ok (), Stub.users).
Proof.
  assert (Stub.users ≠ []) as Hne by (vm_compute; discriminate).
  destruct (seeding_idempotent ucd Stub.digest Stub.salts Stub.salts None
              (Ok Stub.seed) Stub.users) as (Hdb & Happ & _).
  split; [exact Hne|].
  split; [exact (Hdb Hne) | apply (Happ Hne); discriminate].
Defined.

(** C6 as stated fails on app.py: with [RESET_DB=1] a store that holds one
    record is emptied and seeded again with four. *)
Lemma app_reset_reseeds :
  [Stub.jhon] ≠ []
  ∧ durable (App.init_db ucd Stub.digest Stub.salts (Some (lit "1"))
               (Ok Stub.seed)) [Stub.jhon]
    ≠ (Ok (), [Stub.jhon])
  ∧ length (durable (App.init_db ucd Stub.digest Stub.salts (Some (lit "1"))
                       (Ok Stub.seed)) [Stub.jhon]).2 = 4%nat.
Proof.
  split; [discriminate|].
  split; [|vm_compute; reflexivity].
  intros H. apply (f_equal (λ p, length p.2)) in H. vm_compute in H.
  discriminate H.
Qed.

(** C9. Seeding an empty store is all or nothing, in both implementations:
    whatever the seed file holds, and wherever the run fails (opening or
    parsing the file, an element that is no valid record, a row the
    constraints refuse), a failed run leaves the store empty, and a run that
    completes has stored one row for every seed record.  Rows inserted
    before the failure were part of the open transaction only, which is
    never committed.  The same holds when app.py seeds after a reset. *)
Theorem seeding_atomic U raw salts env data (t : table) :
  t = [] ∨ env = Some (lit "1") →
  (∀ res t', durable (App.init_db U raw salts env data) t = (res, t') →
     match res with
     | Raise _ => t' = []
     | Ok _ => ∃ items, data = Ok items ∧ Forall is_record items
                        ∧ t' = app_rows U raw salts 0 items
                        ∧ length t' = length items
     end)
  ∧ (∀ res t', durable (Db.init_db U data) [] = (res, t') →
     match res with
     | Raise _ => t' = []
     | Ok _ => ∃ items, data = Ok items ∧ Forall is_record items
                        ∧ t' = db_rows U items
                        ∧ length t' = length items
     end).
Proof.
  intros Hpre. split; intros res t' Hrun.
  - apply app_init_db_cases in Hrun
      as [(Henv & Ht & _)|(_ & [(e & -> & ->)|(items & -> & Hrec & -> & -> & _)])].
    + by destruct Hpre.
    + reflexivity.
    + exists items. by rewrite app_rows_length.
  - apply db_init_db_cases in Hrun
      as [(Ht & _)|(_ & [(e & -> & ->)|(items & -> & Hrec & -> & -> & _)])].
    + done.
    + reflexivity.
    + exists items. by rewrite db_rows_length.
Qed.

Lemma seeding_atomic_witness :
  (@nil row = [] ∨ @None pystr = Some (lit "1"))
  ∧ (durable (App.init_db ucd Stub.digest Stub.salts None
                (Ok Stub.clashing_seed)) []).1 = Raise IntegrityError
  ∧ (durable (App.init_db ucd Stub.digest Stub.salts None
                (Ok Stub.clashing_seed)) []).2 = [].
Proof.
  split; [left; reflexivity|].
  destruct (durable (App.init_db ucd Stub.digest Stub.salts None
                       (Ok Stub.clashing_seed)) []) as [res t'] eqn:Hrun.
  assert (res = Raise IntegrityError) as ->.
  { apply (f_equal fst) in Hrun. vm_compute in Hrun. done. }
  split; [reflexivity|].
  exact (proj1 (seeding_atomic ucd Stub.digest Stub.salts None
                  (Ok Stub.clashing_seed) [] (or_introl eq_refl)) _ _ Hrun).
Defined.

(** At the moment of that failure the two rows inserted so far exist in
    the open transaction only. *)
Lemma failed_seed_pending :
  let w := (App.init_db ucd Stub.digest Stub.salts None
              (Ok Stub.clashing_seed) (Sqlite.connect [])).2 in
  Sqlite.disk w = [] ∧ length <$> Sqlite.pending w = Some 2%nat.
Proof. vm_compute. split; reflexivity. Qed.

(** ** The default password *)

(** With unique usernames the lookup of a stored user's name finds that
    user. *)
Lemma find_user_stored (t : table) (r : row) :
  NoDup (username <$> t) → r ∈ t → find_user t (username r) = Some r.
Proof.
  unfold find_user. induction t as [|r0 t IH]; intros Hnd Hr.
  - by apply elem_of_nil in Hr.
  - rewrite fmap_cons in Hnd. apply NoDup_cons in Hnd as [Hr0 Hnd].
    apply elem_of_cons in Hr as [->|Hr].
    + by rewrite filter_cons_True.
    + rewrite filter_cons_False; [by apply IH|].
      intros Heq. apply Hr0. rewrite Heq. by apply list_elem_of_fmap_2.
Qed.

Lemma find_user_elem (t : table) (name : pystr) (r : row) :
  find_user t name = Some r → r ∈ t.
Proof.
  unfold find_user. intros H.
  assert (r ∈ filter (λ r, username r = name) t) as Hr.
  { destruct (filter _ t) as [|r' l]; [done|]. injection H as ->. left. }
  by apply list_elem_of_filter in Hr as [_ ?].
Qed.

(** A password verifies against the hash made from it. *)
Lemma checkpw_hashpw raw (password : bytes) (salt : pystr) :
  length salt = 29%nat → checkpw raw password (hashpw raw password salt) = true.
Proof.
  intros Hlen. apply bool_decide_eq_true. unfold hashpw.
  rewrite (take_ge salt) by lia. by rewrite take_app_length' by done.
Qed.

Lemma app_rows_elem U raw salts from items (r : row) :
  r ∈ app_rows U raw salts from items →
  ∃ k, (from ≤ k < from + length items)%nat
       ∧ password_hash r = hashpw raw (lit "password") (salts k).
Proof.
  revert from. induction items as [|item items IH]; intros from; simpl.
  - intros []%elem_of_nil.
  - intros [Hr|Hr]%elem_of_app.
    + destruct item; simpl in Hr; [|by apply elem_of_nil in Hr].
      apply list_elem_of_singleton in Hr as ->. exists from. split; [lia|done].
    + apply IH in Hr as (k & Hk & Hh). exists k. split; [lia|done].
Qed.

(** On app.py the claim about the default password holds: after an empty
    store has been seeded, every stored user logs in with ["password"], and
    with no password that bcrypt tells apart from it. *)
Lemma app_seeded_login U raw salts env (items : list seed_item)
    (t' : table) (r : row) :
  (∀ i, (i < length items)%nat → length (salts i) = 29%nat) →
  durable (App.init_db U raw salts env (Ok items)) [] = (Ok (), t') →
  r ∈ t' →
  App._authenticate_user raw t' (username r) (lit "password")
  = Ok (Some (public_user r))
  ∧ ∀ p, checkpw raw (encode_utf8 p) (password_hash r) = false →
         App._authenticate_user raw t' (username r) p = Ok None.
Proof.
  intros Hlen Hrun Hr.
  apply app_init_db_cases in Hrun
    as [(_ & ? & _)|(_ & [(e & ? & _)|(items' & Hd & Hrec & _ & -> & Hk)])];
    [done | done |].
  injection Hd as <-.
  assert (find_user (app_rows U raw salts 0 items) (username r) = Some r)
    as Hfind by (apply find_user_stored; [apply Hk | done]).
  split.
  - rewrite app_authenticate_spec, Hfind.
    apply app_rows_elem in Hr as (k & Hk' & ->).
    change (encode_utf8 (lit "password")) with (lit "password").
    rewrite checkpw_hashpw; [done|]. apply Hlen. lia.
  - intros p Hp. by rewrite app_authenticate_spec, Hfind, Hp.
Qed.

Lemma test_hash_split :
  Db.TEST_PASSWORD_HASH
  = lit "$2b$12$92IXUNpkjO0rOQ5byMi.Ye" ++ lit "4oKoEa3Ro9llC/.og/at2.uheWG/igi"
  ∧ take 29 Db.TEST_PASSWORD_HASH = lit "$2b$12$92IXUNpkjO0rOQ5byMi.Ye".
Proof. split; reflexivity. Qed.

(** C5, on db.py.  Given the digest that bcrypt computes for ["password"]
    under the settings of [TEST_PASSWORD_HASH] (a hypothesis here: bcrypt
    itself is a parameter of the model), which is not the digest written in
    that constant, no user that db.py seeded can log in with ["password"]:
    the authenticator answers [None] for every username. *)
Theorem db_default_password_rejected
    (bcrypt_raw : pystr → bytes → pystr) U data (name : pystr) :
  bcrypt_raw (lit "$2b$12$92IXUNpkjO0rOQ5byMi.Ye") (lit "password")
  = lit "T742UL5un1LijB1o.1G7.n8cEHwAFgu" →
  Auth.authenticate_user bcrypt_raw (durable (Db.init_db U data) []).2 name
    (lit "password") = Ok None.
Proof.
  intros Hraw. rewrite auth_authenticate_spec, app_authenticate_spec.
  destruct (find_user _ name) as [r|] eqn:Hfind; [|reflexivity].
  apply find_user_elem in Hfind.
  pose proof (db_seeded_hash U data) as Hhash.
  rewrite Forall_forall in Hhash. rewrite (Hhash r Hfind).
  change (encode_utf8 (lit "password")) with (lit "password").
  unfold checkpw, hashpw.
  rewrite (proj2 test_hash_split), Hraw, (proj1 test_hash_split).
  rewrite bool_decide_eq_false_2; [reflexivity|].
  intros H%app_inv_head. vm_compute in H. discriminate H.
Qed.

Lemma db_default_password_rejected_witness :
  Stub.known_digest (lit "$2b$12$92IXUNpkjO0rOQ5byMi.Ye") (lit "password")
  = lit "T742UL5un1LijB1o.1G7.n8cEHwAFgu"
  ∧ is_Some (find_user Stub.db_users (lit "jhon_doe_1"))
  ∧ Auth.authenticate_user Stub.known_digest Stub.db_users (lit "jhon_doe_1")
      (lit "password") = Ok None.
Proof.
  assert (Stub.known_digest (lit "$2b$12$92IXUNpkjO0rOQ5byMi.Ye")
            (lit "password") = lit "T742UL5un1LijB1o.1G7.n8cEHwAFgu") as Hraw.
  { vm_compute. reflexivity. }
  split; [exact Hraw|]. split.
  - vm_compute. eexists. reflexivity.
  - exact (db_default_password_rejected Stub.known_digest ucd (Ok Stub.seed)
             (lit "jhon_doe_1") Hraw).
Defined.

(** ** Username derivation *)

Section Slug.
Variable U : unicode.

Lemma split_from_nonempty (word s : pystr) :
  word ≠ [] → Str.split_from U word s ≠ [].
Proof.
  revert word. induction s as [|c s IH]; intros word Hw; simpl.
  - by destruct word.
  - destruct (isspace U c); [by destruct word|]. by apply IH.
Qed.

Lemma split_lstrip (s : pystr) :
  Str.split U (Str.lstrip U s) = Str.split U s.
Proof.
  unfold Str.split. induction s as [|c s IH]; [reflexivity|]. simpl.
  destruct (isspace U c) eqn:Hc; [exact IH|]. simpl. by rewrite Hc.
Qed.

(** Whitespace at the end adds no word. *)
Lemma split_from_snoc_space (word s : pystr) (c : N) :
  isspace U c = true →
  Str.split_from U word (s ++ [c]) = Str.split_from U word s.
Proof.
  intros Hc. revert word. induction s as [|d s IH]; intros word; simpl.
  - rewrite Hc. by destruct word.
  - destruct (isspace U d); [|apply IH]. by rewrite IH.
Qed.

Lemma split_rstrip (s : pystr) :
  Str.split U (reverse (Str.lstrip U (reverse s))) = Str.split U s.
Proof.
  unfold Str.split. induction s as [|c s IH] using rev_ind.
  - reflexivity.
  - rewrite reverse_snoc. simpl. destruct (isspace U c) eqn:Hc.
    + by rewrite IH, split_from_snoc_space.
    + by rewrite reverse_cons, reverse_involutive.
Qed.

Lemma split_strip (s : pystr) : Str.split U (Str.strip U s) = Str.split U s.
Proof. unfold Str.strip. by rewrite split_rstrip, split_lstrip. Qed.

Lemma join_cons (sep w : pystr) (ws : list pystr) :
  Str.join sep (w :: ws)
  = if ws is [] then w else w ++ sep ++ Str.join sep ws.
Proof. by destruct ws. Qed.

(** The words of the text, joined by ["_"] and filtered, are what the one
    pass of [Spec.squeeze] writes.  The three statements follow the three
    states of the pass: before the first word, inside a word, and in the
    whitespace after a word. *)
Lemma squeeze_split (s : pystr) :
  let keep := filter (λ ch, isalnum U ch ∨ ch = 95) in
  let out := λ ws, keep (Str.join (lit "_") ws) in
  Spec.squeeze U false false s = out (Str.split U s)
  ∧ (∀ word, word ≠ [] →
       out (Str.split_from U word s)
       = keep (reverse word) ++ Spec.squeeze U true false s)
  ∧ Spec.squeeze U true true s
    = if Str.split U s is [] then [] else 95 :: out (Str.split U s).
Proof.
  intros keep out. unfold Str.split.
  induction s as [|c s (IH1 & IH2 & IH3)].
  - split; [reflexivity|]. split; [|reflexivity].
    intros word Hw. simpl. destruct word; [done|].
    unfold out. simpl. by rewrite app_nil_r.
  - simpl. destruct (isspace U c) eqn:Hc.
    + split; [exact IH1|]. split; [|exact IH3].
      intros word Hw. destruct word as [|d word]; [done|].
      unfold out. rewrite join_cons, IH3.
      destruct (Str.split_from U [] s) as [|w ws] eqn:Hs;
        [by rewrite app_nil_r|].
      unfold keep. rewrite !filter_app. f_equal.
      change (lit "_") with [95]. by rewrite filter_cons_True by (by right).
    + assert (keep [c] = if bool_decide (isalnum U c ∨ c = 95)
                         then [c] else []) as Hkeep.
      { unfold keep. rewrite filter_cons, filter_nil.
        by case_bool_decide; [rewrite decide_True|rewrite decide_False]. }
      rewrite <- Hkeep.
      assert (∀ word, out (Str.split_from U (c :: word) s)
                      = keep (reverse word) ++ keep [c]
                        ++ Spec.squeeze U true false s) as Hword.
      { intros word. rewrite IH2 by done.
        unfold keep. by rewrite reverse_cons, filter_app, <- app_assoc. }
      split; [symmetry; exact (Hword [])|].
      split; [intros word _; apply Hword|].
      pose proof (split_from_nonempty [c] s) as Hne.
      destruct (Str.split_from U [c] s) as [|w ws] eqn:Hs; [by destruct Hne|].
      rewrite <- Hs. simpl. f_equal. symmetry. exact (Hword []).
Qed.

Lemma app_slug_spec (text : pystr) : App._slugify U text = Spec.slug U text.
Proof.
  unfold App._slugify, Spec.slug. rewrite split_strip.
  symmetry. apply squeeze_split.
Qed.

Lemma replace_space (s : pystr) :
  Str.replace_char 32 (lit "_") s
  = (λ ch, if bool_decide (ch = 32) then 95 else ch) <$> s.
Proof.
  unfold Str.replace_char. induction s as [|c s IH]; [reflexivity|].
  rewrite fmap_cons, <- IH. simpl.
  case_bool_decide as Hc.
  - subst c. reflexivity.
  - apply N.eqb_neq in Hc. by rewrite Hc.
Qed.

End Slug.

(** C7, as amended.  For every display name and id, app.py derives the
    username by stripping diacritics, lowercasing, dropping the whitespace
    around the name, turning every run of whitespace inside it into one
    ["_"], deleting every other character that is neither alphanumeric nor
    ["_"] (such a character is not turned into a separator), and appending
    ["_<id>"]; db.py lowercases, replaces every space character by ["_"] and
    appends ["_<id>"]. *)
Theorem username_rule (U : unicode) (nombre : pystr) (id : Z) :
  App.make_username U nombre id = Spec.appUsername U nombre id
  ∧ Db.make_username U nombre id = Spec.dbUsername U nombre id.
Proof.
  split.
  - unfold App.make_username, Spec.appUsername. by rewrite app_slug_spec.
  - unfold Db.make_username, Spec.dbUsername. by rewrite replace_space.
Qed.

(** C7 as stated fails: the hyphen of "Ana-Maria" is deleted by app.py and
    kept by db.py, where the rule of the specification writes a separator. *)
Lemma hyphen_is_not_a_separator :
  Spec.deriveUsername ucd (lit "Ana-Maria") 7 = lit "ana_maria_7"
  ∧ App.make_username ucd (lit "Ana-Maria") 7 = lit "anamaria_7"
  ∧ Db.make_username ucd (lit "Ana-Maria") 7 = lit "ana-maria_7"
  ∧ App.make_username ucd (lit "Ana-Maria") 7
    ≠ Spec.deriveUsername ucd (lit "Ana-Maria") 7
  ∧ Db.make_username ucd (lit "Ana-Maria") 7
    ≠ Spec.deriveUsername ucd (lit "Ana-Maria") 7.
Proof.
  repeat split; try (vm_compute; reflexivity);
    intros H; vm_compute in H; discriminate H.
Qed.

(** C8. The two implementations derive different usernames: for "José"
    (U+00E9 for the last letter) app.py strips the accent and db.py keeps
    it; hence the two derivation functions are not equal. *)
Theorem username_derivations_differ :
  App.make_username ucd (lit "Jos" ++ [233]) 5 = lit "jose_5"
  ∧ Db.make_username ucd (lit "Jos" ++ [233]) 5
    = lit "jos" ++ [233] ++ lit "_5"
  ∧ (∃ nombre id,
       App.make_username ucd nombre id ≠ Db.make_username ucd nombre id)
  ∧ ¬ (∀ nombre id,
         App.make_username ucd nombre id = Db.make_username ucd nombre id).
Proof.
  assert (App.make_username ucd (lit "Jos" ++ [233]) 5
          ≠ Db.make_username ucd (lit "Jos" ++ [233]) 5) as Hne.
  { intros H. vm_compute in H. discriminate H. }
  split; [vm_compute; reflexivity|]. split; [vm_compute; reflexivity|].
  split; [by exists (lit "Jos" ++ [233]), 5%Z|].
  intros Hall. apply Hne, Hall.
Qed.

(** * Further properties *)

(** ** Printing and reading integers *)

Lemma lit_app (s1 s2 : string) : lit (s1 +:+ s2) = lit s1 ++ lit s2.
Proof.
  induction s1 as [|a s1 IH]; [reflexivity|].
  change (Ascii.N_of_ascii a :: lit (s1 +:+ s2)
          = Ascii.N_of_ascii a :: (lit s1 ++ lit s2)).
  by rewrite IH.
Qed.

Lemma lit_inj (s1 s2 : string) : lit s1 = lit s2 → s1 = s2.
Proof.
  revert s2. induction s1 as [|a s1 IH]; intros [|b s2]; try done.
  change (Ascii.N_of_ascii a :: lit s1 = Ascii.N_of_ascii b :: lit s2
          → String a s1 = String b s2).
  intros [= Hab Hs]. f_equal; [|by apply IH].
  rewrite <- (Ascii.ascii_N_embedding a), <- (Ascii.ascii_N_embedding b).
  by rewrite Hab.
Qed.

Lemma pretty_N_char_code (d : N) :
  d < 10 → Ascii.N_of_ascii (pretty_N_char d) = 48 + d.
Proof.
  intros Hd.
  assert (d = 0 ∨ d = 1 ∨ d = 2 ∨ d = 3 ∨ d = 4 ∨ d = 5 ∨ d = 6 ∨ d = 7
          ∨ d = 8 ∨ d = 9) as Hcases by lia.
  repeat destruct Hcases as [->|Hcases]; try reflexivity.
  by subst.
Qed.

(** The decimal digits of a number, read back from the left. *)
Lemma pretty_N_go_digits (x : N) (s : string) :
  ∃ ds : pystr,
    lit (pretty_N_go x s) = ds ++ lit s
    ∧ Forall (λ c, 48 ≤ c ≤ 57) ds
    ∧ (x ≠ 0 → ds ≠ [])
    ∧ ∀ acc, foldl (λ a c, 10 * a + (c - 48)) acc ds
             = acc * 10 ^ N.of_nat (length ds) + x.
Proof.
  revert s. induction (N.lt_wf_0 x) as [x _ IH]; intros s.
  destruct (decide (x = 0)) as [->|Hx].
  - exists []. rewrite pretty_N_go_0. repeat split; [constructor | done |].
    intros acc. simpl. lia.
  - rewrite pretty_N_go_step by lia.
    assert (x `div` 10 < x) as Hlt. { clear IH. apply N.div_lt; lia. }
    assert (x `mod` 10 < 10) as Hmod by (apply N.mod_lt; lia).
    destruct (IH (x `div` 10) Hlt (String (pretty_N_char (x `mod` 10)) s))
      as (ds & Hlit & Hds & _ & Hval).
    exists (ds ++ [48 + x `mod` 10]). split; [|split; [|split]].
    + rewrite Hlit. unfold lit at 1. simpl.
      rewrite pretty_N_char_code by done. by rewrite <- app_assoc.
    + apply Forall_app. split; [done|]. constructor; [|constructor].
      clear -Hmod. set (m := x `mod` 10) in *. lia.
    + intros _. by destruct ds.
    + intros acc. rewrite foldl_app, Hval, length_app. simpl.
      rewrite Nat2N.inj_add, N.pow_add_r. simpl.
      assert (x = 10 * x `div` 10 + x `mod` 10) as Hdm
        by (apply N.div_mod; lia).
      set (m := x `mod` 10) in *. set (q := x `div` 10) in *.
      set (k := 10 ^ N.of_nat (length ds)). clearbody m q k. lia.
Qed.

(** [str(n)] is made of digits, after a minus sign when [n] is negative. *)
Lemma str_of_int_cases (n : Z) :
  ∃ ds : pystr,
    ds ≠ [] ∧ Forall (λ c, 48 ≤ c ≤ 57) ds
    ∧ foldl (λ a c, 10 * a + (c - 48)) 0 ds = Z.to_N (Z.abs n)
    ∧ str_of_int n = if decide (n < 0)%Z then 45 :: ds else ds.
Proof.
  unfold str_of_int, pretty, pretty_Z. destruct n as [|p|p].
  - exists [48]. repeat split; [done | constructor; [lia|constructor]].
  - destruct (pretty_N_go_digits (N.pos p) EmptyString)
      as (ds & Hlit & Hds & Hne & Hval).
    exists ds. split; [by apply Hne|]. split; [done|].
    split; [rewrite Hval; simpl; lia|].
    rewrite decide_False by lia.
    unfold pretty, pretty_positive, pretty, pretty_N.
    rewrite decide_False by done. by rewrite Hlit, app_nil_r.
  - destruct (pretty_N_go_digits (N.pos p) EmptyString)
      as (ds & Hlit & Hds & Hne & Hval).
    exists ds. split; [by apply Hne|]. split; [done|].
    split; [rewrite Hval; simpl; lia|].
    rewrite decide_True by lia. rewrite lit_app.
    unfold pretty, pretty_positive, pretty, pretty_N.
    rewrite decide_False by done. by rewrite Hlit, app_nil_r.
Qed.

Lemma str_of_int_inj (n m : Z) : str_of_int n = str_of_int m → n = m.
Proof. unfold str_of_int. intros H%lit_inj. by apply (inj pretty). Qed.

Lemma str_of_int_nonempty (n : Z) : str_of_int n ≠ [].
Proof.
  destruct (str_of_int_cases n) as (ds & Hne & _ & _ & ->).
  by case_decide.
Qed.

(** No underscore occurs in [str(n)]. *)
Lemma str_of_int_no_underscore (n : Z) : 95 ∉ str_of_int n.
Proof.
  destruct (str_of_int_cases n) as (ds & _ & Hds & _ & ->).
  rewrite Forall_forall in Hds.
  case_decide.
  - intros [?|Hin]%elem_of_cons; [done|]. apply Hds in Hin. lia.
  - intros Hin. apply Hds in Hin. lia.
Qed.

Lemma lstrip_id U (s : pystr) :
  (if s is c :: _ then isspace U c = false else True) → Str.lstrip U s = s.
Proof. destruct s as [|c s]; [done|]. simpl. by intros ->. Qed.

(** Text without whitespace is left alone by [strip]. *)
Lemma strip_id U (s : pystr) :
  Forall (λ c, isspace U c = false) s → Str.strip U s = s.
Proof.
  intros Hs. unfold Str.strip.
  rewrite (lstrip_id U s) by (by destruct Hs).
  rewrite lstrip_id; [apply reverse_involutive|].
  apply Forall_reverse in Hs. by destruct Hs.
Qed.

Lemma ucd_digit (c : N) : 48 ≤ c ≤ 57 → decimal ucd c = Some (c - 48).
Proof.
  intros Hc. simpl. unfold Ucd.digit, Ucd.between.
  by rewrite (proj2 (N.leb_le 48 c)), (proj2 (N.leb_le c 57)) by lia.
Qed.

Lemma ucd_digit_not_space (c : N) : 45 ≤ c ≤ 57 → isspace ucd c = false.
Proof.
  intros Hc. simpl. unfold Ucd.space, Ucd.between.
  rewrite (proj2 (N.leb_gt c 13)), (proj2 (N.leb_gt c 32)) by lia.
  rewrite (proj2 (N.eqb_neq c 133)), (proj2 (N.eqb_neq c 160)) by lia.
  by rewrite !andb_false_r.
Qed.

Lemma digits_from_digits (ds : pystr) (acc : N) (after_digit : bool) :
  Forall (λ c, 48 ≤ c ≤ 57) ds →
  after_digit = true ∨ ds ≠ [] →
  Str.digits_from ucd acc after_digit ds
  = Some (foldl (λ a c, 10 * a + (c - 48)) acc ds).
Proof.
  intros Hds. revert acc after_digit.
  induction Hds as [|c ds Hc _ IH]; intros acc after_digit Hne.
  - by destruct Hne as [->|].
  - cbn [Str.digits_from foldl]. rewrite ucd_digit by done.
    apply IH. by left.
Qed.

Lemma int_str_round_trip (n : Z) : Str.int_of_str ucd (str_of_int n) = Ok n.
Proof.
  destruct (str_of_int_cases n) as (ds & Hne & Hds & Hval & Hstr).
  assert (Forall (λ c, isspace ucd c = false) (str_of_int n)) as Hsp.
  { rewrite Hstr. case_decide; [constructor; [done|]|];
      (eapply Forall_impl; [exact Hds|]); intros c Hc; simpl in Hc;
      apply ucd_digit_not_space; lia. }
  unfold Str.int_of_str. rewrite strip_id by done. rewrite Hstr.
  case_decide as Hn.
  - rewrite digits_from_digits by auto. simpl. rewrite Hval. f_equal. lia.
  - destruct ds as [|d ds]; [done|].
    assert (48 ≤ d ≤ 57) as Hd by (by inversion Hds).
    assert (Str.digits_from ucd 0 false (d :: ds) = Some (Z.to_N (Z.abs n)))
      as Hparse by (rewrite <- Hval; apply digits_from_digits; auto).
    destruct d as [|p]; [lia|].
    do 6 (destruct p as [p|p|]; try lia);
      rewrite Hparse; simpl; f_equal; lia.
Qed.

(** X1. Reading back what [str] printed gives the integer: with the
    interpreter's tables, [int(str(n)) = n] for every integer [n], so the
    [user_id] cookie that [login] writes is read by [usuarios] as the id
    it was written from, and two different ids never print the same
    cookie. *)
Theorem int_of_str_of_int (n m : Z) :
  Str.int_of_str ucd (str_of_int n) = Ok n
  ∧ (str_of_int n = str_of_int m → n = m).
Proof.
  split; [apply int_str_round_trip | apply str_of_int_inj].
Qed.

(** ** Usernames and ids *)

Lemma split_at_underscore (a b s1 s2 : pystr) :
  95 ∉ s1 → 95 ∉ s2 → a ++ 95 :: s1 = b ++ 95 :: s2 → a = b ∧ s1 = s2.
Proof.
  intros H1 H2. revert b. induction a as [|x a IH]; intros [|y b]; simpl.
  - by intros [= ->].
  - intros [= <- ->]. destruct H1. apply elem_of_app. right. left.
  - intros [= -> <-]. destruct H2. apply elem_of_app. right. left.
  - intros [= -> [-> ->]%IH]. done.
Qed.

Lemma id_suffix_inj (a b : pystr) (id1 id2 : Z) :
  a ++ lit "_" ++ str_of_int id1 = b ++ lit "_" ++ str_of_int id2 →
  id1 = id2 ∧ a = b.
Proof.
  intros H. change (lit "_") with [95] in H. simpl in H.
  apply split_at_underscore in H as [-> ?%str_of_int_inj];
    auto using str_of_int_no_underscore.
Qed.

(** X2. The username determines the id, in both implementations: two
    derived usernames are equal only if the ids are equal (and the name
    parts are).  In particular one name with two different ids gives two
    different usernames. *)
Theorem username_determines_id (U : unicode) (n1 n2 : pystr) (id1 id2 : Z) :
  (App.make_username U n1 id1 = App.make_username U n2 id2 →
   id1 = id2 ∧ App._slugify U n1 = App._slugify U n2)
  ∧ (Db.make_username U n1 id1 = Db.make_username U n2 id2 → id1 = id2)
  ∧ (id1 ≠ id2 →
     App.make_username U n1 id1 ≠ App.make_username U n1 id2
     ∧ Db.make_username U n1 id1 ≠ Db.make_username U n1 id2).
Proof.
  split; [|split].
  - unfold App.make_username. intros H%id_suffix_inj. tauto.
  - unfold Db.make_username. intros H%id_suffix_inj. tauto.
  - intros Hne. split; intros H.
    + unfold App.make_username in H. apply id_suffix_inj in H. tauto.
    + unfold Db.make_username in H. apply id_suffix_inj in H. tauto.
Qed.

(** ** When seeding succeeds *)

Lemma app_rows_ids U raw salts from items :
  uid <$> app_rows U raw salts from items = omap item_id items.
Proof.
  revert from. induction items as [|[id n r q|e] items IH]; intros from;
    simpl; [reflexivity | f_equal; apply IH | apply IH].
Qed.

Lemma db_rows_ids U items : uid <$> db_rows U items = omap item_id items.
Proof.
  unfold db_rows.
  induction items as [|[id n r q|e] items IH]; simpl;
    [reflexivity | f_equal; apply IH | apply IH].
Qed.

Lemma app_rows_usernames U raw salts from items (u : pystr) :
  u ∈ username <$> app_rows U raw salts from items →
  ∃ id n, u = App.make_username U n id ∧ id ∈ omap item_id items.
Proof.
  revert from. induction items as [|[id n r q|e] items IH]; intros from; simpl.
  - intros []%elem_of_nil.
  - intros [->|Hu]%elem_of_cons.
    + exists id, n. split; [done|left].
    + apply IH in Hu as (id' & n' & -> & Hid). exists id', n'.
      split; [done|by right].
  - apply IH.
Qed.

Lemma db_rows_usernames U items (u : pystr) :
  u ∈ username <$> db_rows U items →
  ∃ id n, u = Db.make_username U n id ∧ id ∈ omap item_id items.
Proof.
  unfold db_rows.
  induction items as [|[id n r q|e] items IH]; simpl.
  - intros []%elem_of_nil.
  - intros [->|Hu]%elem_of_cons.
    + exists id, n. split; [done|left].
    + apply IH in Hu as (id' & n' & -> & Hid). exists id', n'.
      split; [done|by right].
  - apply IH.
Qed.

Lemma app_rows_app U raw salts from l1 l2 :
  app_rows U raw salts from (l1 ++ l2)
  = app_rows U raw salts from l1
    ++ app_rows U raw salts (from + length l1) l2.
Proof.
  revert from. induction l1 as [|item l1 IH]; intros from; simpl.
  - by rewrite Nat.add_0_r.
  - rewrite IH, <- app_assoc. do 3 f_equal. lia.
Qed.

Lemma db_rows_app U l1 l2 : db_rows U (l1 ++ l2) = db_rows U l1 ++ db_rows U l2.
Proof. apply omap_app. Qed.

(** The ids and usernames of the rows do not depend on the salts. *)
Lemma app_rows_keys U raw s1 s2 k1 k2 items :
  (λ r, (uid r, username r)) <$> app_rows U raw s1 k1 items
  = (λ r, (uid r, username r)) <$> app_rows U raw s2 k2 items.
Proof.
  revert k1 k2. induction items as [|[id n r q|e] items IH]; intros k1 k2;
    simpl; [reflexivity | f_equal; apply IH | apply IH].
Qed.

Lemma keys_fst (t : table) :
  uid <$> t = fst <$> ((λ r, (uid r, username r)) <$> t).
Proof. by rewrite <- list_fmap_compose. Qed.

Lemma keys_snd (t : table) :
  username <$> t = snd <$> ((λ r, (uid r, username r)) <$> t).
Proof. by rewrite <- list_fmap_compose. Qed.

Lemma rows_pending (d t : table) (k : nat) :
  Sqlite.rows {| Sqlite.disk := d; Sqlite.pending := Some t;
                 Sqlite.drawn := k |} = t.
Proof. reflexivity. Qed.

(** With pairwise different ids no insert of app.py's loop is refused. *)
Lemma app_loop_ok U raw salts (prev items : list seed_item)
    (w : Sqlite.world) :
  Forall is_record items →
  NoDup (omap item_id (prev ++ items)) →
  (λ r, (uid r, username r)) <$> Sqlite.rows w
  = (λ r, (uid r, username r)) <$> app_rows U raw salts 0 prev →
  (Sqlite.for_each items (App.seed_user U raw salts) w).1 = Ok ().
Proof.
  intros Hrec. revert prev w.
  induction Hrec as [|item items Hitem _ IH]; intros prev w Hnd Hkeys;
    [reflexivity|].
  destruct item as [id n r q|e]; [|done].
  cbn [Sqlite.for_each]. unfold Sqlite.bind.
  destruct (App.seed_user U raw salts (SeedObj id n r q) w)
    as [res w1] eqn:Hstep.
  assert (id ∉ omap item_id prev) as Hfresh.
  { rewrite omap_app in Hnd. apply NoDup_app in Hnd as (_ & Hnd & _).
    intros Hin. apply (Hnd id Hin). left. }
  unfold App.seed_user, mbind, sqlite_bind, Sqlite.bind, App.gensalt,
    Sqlite.execute_insert in Hstep. cbn [uid username] in Hstep.
  change (Sqlite.rows {| Sqlite.disk := Sqlite.disk w;
                         Sqlite.pending := Sqlite.pending w;
                         Sqlite.drawn := S (Sqlite.drawn w) |})
    with (Sqlite.rows w) in Hstep.
  rewrite bool_decide_eq_false_2 in Hstep.
  - injection Hstep as <- <-.
    apply (IH (prev ++ [SeedObj id n r q])).
    + by rewrite <- app_assoc.
    + rewrite rows_pending, app_rows_app, !fmap_app, Hkeys. f_equal.
  - rewrite keys_fst, keys_snd, Hkeys, <- keys_fst, <- keys_snd.
    rewrite app_rows_ids. intros [Hid|Hname]; [done|].
    apply app_rows_usernames in Hname as (id' & n' & Heq & Hid').
    unfold App.make_username in Heq.
    apply id_suffix_inj in Heq as [-> _]. done.
Qed.

Lemma db_loop_ok U (prev items : list seed_item) (w : Sqlite.world) :
  Forall is_record items →
  NoDup (omap item_id (prev ++ items)) →
  Sqlite.rows w = db_rows U prev →
  (Sqlite.for_each items (Db.seed_user U) w).1 = Ok ().
Proof.
  intros Hrec. revert prev w.
  induction Hrec as [|item items Hitem _ IH]; intros prev w Hnd Hrows;
    [reflexivity|].
  destruct item as [id n r q|e]; [|done].
  cbn [Sqlite.for_each]. unfold Sqlite.bind.
  destruct (Db.seed_user U (SeedObj id n r q) w) as [res w1] eqn:Hstep.
  assert (id ∉ omap item_id prev) as Hfresh.
  { rewrite omap_app in Hnd. apply NoDup_app in Hnd as (_ & Hnd & _).
    intros Hin. apply (Hnd id Hin). left. }
  unfold Db.seed_user, Sqlite.execute_insert in Hstep.
  cbn [uid username] in Hstep.
  rewrite bool_decide_eq_false_2 in Hstep.
  - injection Hstep as <- <-.
    apply (IH (prev ++ [SeedObj id n r q])).
    + by rewrite <- app_assoc.
    + by rewrite rows_pending, db_rows_app, Hrows.
  - rewrite Hrows, db_rows_ids. intros [Hid|Hname]; [done|].
    apply db_rows_usernames in Hname as (id' & n' & Heq & Hid').
    unfold Db.make_username in Heq.
    apply id_suffix_inj in Heq as [-> _]. done.
Qed.

(** The outcome of a run on an empty store is the outcome of its loop. *)
Lemma app_init_db_loop U raw salts env items (t : table) :
  t = [] ∨ env = Some (lit "1") →
  (durable (App.init_db U raw salts env (Ok items)) t).1
  = (Sqlite.for_each items (App.seed_user U raw salts)
       (Sqlite.connect [])).1.
Proof.
  intros Hpre.
  unfold durable, App.init_db, mbind, sqlite_bind, mret, sqlite_ret.
  unfold Sqlite.bind at 1 2.
  case_bool_decide as Henv; simpl.
  - unfold Sqlite.bind. simpl. unfold Sqlite.connect.
    cbn [Sqlite.rows Sqlite.pending Sqlite.disk default from_option
         Datatypes.id].
    by destruct (Sqlite.for_each items _ _) as [[[]|e] w1].
  - destruct Hpre as [->|?]; [|done]. simpl.
    unfold Sqlite.bind. simpl.
    by destruct (Sqlite.for_each items _ _) as [[[]|e] w1].
Qed.

Lemma db_init_db_loop U items :
  (durable (Db.init_db U (Ok items)) []).1
  = (Sqlite.for_each items (Db.seed_user U) (Sqlite.connect [])).1.
Proof.
  unfold durable, Db.init_db, Db.create_table, Sqlite.try_finally,
    mbind, sqlite_bind, mret, sqlite_ret.
  unfold Sqlite.bind at 1 2. simpl. unfold Sqlite.bind. simpl.
  change (Sqlite.rows (Sqlite.connect [])) with (@nil row).
  unfold Sqlite.connect.
  by destruct (Sqlite.for_each items _ _) as [[[]|e] w1].
Qed.

Lemma app_seeding_iff U raw salts env data (t' : table) :
  durable (App.init_db U raw salts env data) [] = (Ok (), t')
  ↔ ∃ items, data = Ok items ∧ Forall is_record items
             ∧ NoDup (omap item_id items)
             ∧ t' = app_rows U raw salts 0 items.
Proof.
  split.
  - intros Hrun. apply app_init_db_cases in Hrun
      as [(_ & ? & _)|(_ & [(e & ? & _)|(items & -> & Hrec & _ & -> & Hk)])];
      [done | done |].
    exists items. split; [done|]. split; [done|]. split; [|done].
    rewrite <- (app_rows_ids U raw salts 0). apply Hk.
  - intros (items & -> & Hrec & Hnd & ->).
    pose proof (app_init_db_loop U raw salts env items [] (or_introl eq_refl))
      as Hres.
    rewrite (app_loop_ok U raw salts [] items)
      in Hres by (done || exact Hnd).
    destruct (durable _ []) as [res t1] eqn:Hrun. simpl in Hres. subst res.
    apply app_init_db_cases in Hrun
      as [(_ & ? & _)|(_ & [(e & ? & _)|(items' & Hd & _ & _ & -> & _)])];
      [done | done |].
    by injection Hd as <-.
Qed.

Lemma db_seeding_iff U data (t' : table) :
  durable (Db.init_db U data) [] = (Ok (), t')
  ↔ ∃ items, data = Ok items ∧ Forall is_record items
             ∧ NoDup (omap item_id items)
             ∧ t' = db_rows U items.
Proof.
  split.
  - intros Hrun. apply db_init_db_cases in Hrun
      as [(? & _)|(_ & [(e & ? & _)|(items & -> & Hrec & _ & -> & Hk)])];
      [done | done |].
    exists items. split; [done|]. split; [done|]. split; [|done].
    rewrite <- (db_rows_ids U). apply Hk.
  - intros (items & -> & Hrec & Hnd & ->).
    pose proof (db_init_db_loop U items) as Hres.
    rewrite (db_loop_ok U [] items) in Hres by (done || exact Hnd).
    destruct (durable _ []) as [res t1] eqn:Hrun. simpl in Hres. subst res.
    apply db_init_db_cases in Hrun
      as [(? & _)|(_ & [(e & ? & _)|(items' & Hd & _ & _ & -> & _)])];
      [done | done |].
    by injection Hd as <-.
Qed.


(** ** Looking up what was seeded *)

Lemma models_public_lookup (t : table) (name : pystr) :
  Models.get_user_by_username t name = public_user <$> find_user t name.
Proof.
  unfold Models.get_user_by_username, find_user.
  destruct (filter _ t) as [|r l]; reflexivity.
Qed.





(** X5. The user that a successful authentication returns is the public
    record of that username: it is what the lookup of models.py (the one
    without hash) returns for the same name, for both authenticators. *)
Theorem authenticated_user_is_public_lookup
    (bcrypt_raw : pystr → bytes → pystr) (t : table)
    (name password : pystr) (user : pydict) :
  Auth.authenticate_user bcrypt_raw t name password = Ok (Some user)
  ∨ App._authenticate_user bcrypt_raw t name password = Ok (Some user) →
  Models.get_user_by_username t name = Some user.
Proof.
  rewrite auth_authenticate_spec, app_authenticate_spec, models_public_lookup.
  destruct (find_user t name) as [r|]; [|by intros [|]].
  destruct (checkpw _ _ _); [|by intros [|]].
  by intros [[= <-]|[= <-]].
Qed.

Lemma authenticated_user_is_public_lookup_witness :
  Auth.authenticate_user Stub.digest Stub.users (lit "jhon_doe_1")
    (lit "password") = Ok (Some (public_user Stub.jhon))
  ∧ Models.get_user_by_username Stub.users (lit "jhon_doe_1")
    = Some (public_user Stub.jhon).
Proof.
  assert (Auth.authenticate_user Stub.digest Stub.users (lit "jhon_doe_1")
            (lit "password") = Ok (Some (public_user Stub.jhon))) as Hlogin.
  { vm_compute. reflexivity. }
  split; [exact Hlogin|].
  exact (authenticated_user_is_public_lookup Stub.digest Stub.users
           (lit "jhon_doe_1") (lit "password") _ (or_introl Hlogin)).
Defined.

(** ** The handlers *)

(** [login] in terms of the row that the lookup finds. *)
Lemma login_spec U raw (t : table) (req_username req_password : option pystr) :
  App.login U raw t req_username req_password =
  let name := Str.strip U (if truthy_str req_username
                           then default [] req_username else []) in
  let password := if truthy_str req_password
                  then default [] req_password else [] in
  match find_user t name with
  | None => HTTPException 401 "Credenciales invalidas"
  | Some r =>
      if checkpw raw (encode_utf8 password) (password_hash r)
      then Response (public_user r,
                     {[ "user_id" := str_of_int (uid r); "role" := rol r ]})
      else HTTPException 401 "Credenciales invalidas"
  end.
Proof.
  unfold App.login. rewrite app_authenticate_spec. cbv zeta.
  destruct (find_user t _) as [r|]; [|reflexivity].
  by destruct (checkpw _ _ _).
Qed.

Lemma filter_key_unique {A K} `{EqDecision K} (f : A → K) (l : list A)
    (x : A) :
  NoDup (f <$> l) → x ∈ l → filter (λ y, f y = f x) l = [x].
Proof.
  induction l as [|y l IH]; intros Hnd Hx; [by apply elem_of_nil in Hx|].
  rewrite fmap_cons in Hnd. apply NoDup_cons in Hnd as [Hy Hnd].
  apply elem_of_cons in Hx as [->|Hx].
  - rewrite filter_cons_True by done. f_equal.
    apply filter_none. intros z Hz Heq. apply Hy. rewrite <- Heq.
    by apply list_elem_of_fmap_2.
  - rewrite filter_cons_False; [by apply IH|].
    intros Heq. apply Hy. rewrite Heq. by apply list_elem_of_fmap_2.
Qed.

Lemma usuarios_parsed U (t : table) (c role : pystr) (id : Z) :
  c ≠ [] → role ≠ [] → Str.int_of_str U c = Ok id →
  App.usuarios U t (Some c) (Some role)
  = Response (App._get_users_for_role t id role).
Proof.
  intros Hc Hrole Hint. unfold App.usuarios, truthy_str.
  rewrite !bool_decide_eq_true_2 by done. simpl. by rewrite Hint.
Qed.

Lemma login_ok U raw (t : table) (req_username req_password : option pystr)
    (user : pydict) (cookies : gmap string pystr) :
  App.login U raw t req_username req_password = Response (user, cookies) →
  ∃ r, r ∈ t ∧ user = public_user r
       ∧ cookies = {[ "user_id" := str_of_int (uid r); "role" := rol r ]}.
Proof.
  rewrite login_spec. cbv zeta.
  destruct (find_user t _) as [r|] eqn:Hfind; [|discriminate].
  destruct (checkpw _ _ _); [|discriminate].
  intros [= <- <-]. exists r. split; [by eapply find_user_elem|]. done.
Qed.

Lemma usuarios_own_cookies (t : table) (r : row) :
  let cookies : gmap string pystr :=
    {[ "user_id" := str_of_int (uid r); "role" := rol r ]} in
  App.usuarios ucd t (cookies !! "user_id") (cookies !! "role")
  = if decide (rol r = []) then HTTPException 401 "No autenticado"
    else Response (App._get_users_for_role t (uid r) (rol r)).
Proof.
  cbv zeta.
  change (({[ "user_id" := str_of_int (uid r); "role" := rol r ]}
           : gmap string pystr) !! "user_id") with (Some (str_of_int (uid r))).
  change (({[ "user_id" := str_of_int (uid r); "role" := rol r ]}
           : gmap string pystr) !! "role") with (Some (rol r)).
  case_decide as Hrol.
  - unfold App.usuarios, truthy_str. rewrite Hrol.
    rewrite (bool_decide_eq_false_2 (@nil N ≠ [])) by (by intros []).
    by rewrite orb_true_r.
  - apply usuarios_parsed;
      [apply str_of_int_nonempty | done | apply int_str_round_trip].
Qed.

(** X7. The session round trip.  The cookies that a successful login sets
    are accepted by [GET /usuarios]: the id printed into the [user_id]
    cookie is read back, and the answer is the listing for the id and the
    role of the user who logged in.  The one exception is a user whose role
    is the empty string: the login succeeds, and the listing request is
    answered 401 as if no cookie had been sent. *)
Theorem session_round_trip (bcrypt_raw : pystr → bytes → pystr) (t : table)
    (req_username req_password : option pystr) (user : pydict)
    (cookies : gmap string pystr) :
  App.login ucd bcrypt_raw t req_username req_password
  = Response (user, cookies) →
  ∃ r, r ∈ t ∧ user = public_user r
       ∧ App.usuarios ucd t (cookies !! "user_id") (cookies !! "role")
         = if decide (rol r = []) then HTTPException 401 "No autenticado"
           else Response (App._get_users_for_role t (uid r) (rol r)).
Proof.
  intros (r & Hr & -> & ->)%login_ok. exists r.
  split; [done|]. split; [done|]. apply usuarios_own_cookies.
Qed.

Lemma session_round_trip_witness :
  App.login ucd Stub.digest Stub.users (Some (lit "jhon_doe_1"))
    (Some (lit "password"))
  = Response (public_user Stub.jhon,
              {[ "user_id" := lit "1"; "role" := lit "admin" ]})
  ∧ ∃ r, r ∈ Stub.users ∧ public_user Stub.jhon = public_user r
         ∧ App.usuarios ucd Stub.users (Some (lit "1")) (Some (lit "admin"))
           = if decide (rol r = []) then HTTPException 401 "No autenticado"
             else Response (App._get_users_for_role Stub.users (uid r)
                              (rol r)).
Proof.
  assert (App.login ucd Stub.digest Stub.users (Some (lit "jhon_doe_1"))
            (Some (lit "password"))
          = Response (public_user Stub.jhon,
                      {[ "user_id" := lit "1"; "role" := lit "admin" ]}))
    as Hlogin by (vm_compute; reflexivity).
  split; [exact Hlogin|].
  exact (session_round_trip _ _ _ _ _ _ Hlogin).
Defined.

(** X8. What a logged-in user sees.  On a store with unique ids, the
    cookies of a successful login make [GET /usuarios] return: for a user
    whose role is usuario, the one-element list of that user's own record
    (the login's user without its username); for an admin, every record;
    for a supervisor, the records whose role is supervisor or usuario. *)
Theorem logged_in_listing (bcrypt_raw : pystr → bytes → pystr) (t : table)
    (req_username req_password : option pystr) (user : pydict)
    (cookies : gmap string pystr) :
  keys_ok t →
  App.login ucd bcrypt_raw t req_username req_password
  = Response (user, cookies) →
  let answer :=
    App.usuarios ucd t (cookies !! "user_id") (cookies !! "role") in
  (user !! "rol" = Some (VStr (lit "usuario")) →
   answer = Response [delete "username" user])
  ∧ (user !! "rol" = Some (VStr (lit "admin")) →
     answer = Response (summary <$> t))
  ∧ (user !! "rol" = Some (VStr (lit "supervisor")) →
     answer = Response (summary <$> filter (λ r, rol r = lit "supervisor"
                                                 ∨ rol r = lit "usuario") t)).
Proof.
  intros Hkeys Hlogin answer. subst answer.
  apply login_ok in Hlogin as (r & Hr & -> & ->).
  rewrite usuarios_own_cookies.
  change (public_user r !! "rol") with (Some (VStr (rol r))).
  change (App._get_users_for_role t (uid r) (rol r))
    with (Models.get_users_for_role t (uid r) (rol r)).
  rewrite listing_spec.
  split; [|split]; intros [= ->]; rewrite decide_False by done.
  - rewrite !decide_False, decide_True by done.
    by rewrite (filter_key_unique uid t r) by (done || apply Hkeys).
  - by rewrite decide_True.
  - by rewrite decide_False, decide_True.
Qed.

Lemma logged_in_listing_witness :
  keys_ok Stub.users
  ∧ App.login ucd Stub.digest Stub.users (Some (lit "valentina_rios_3"))
      (Some (lit "password"))
    = Response (public_user (default Stub.jhon (Stub.users !! 2%nat)),
                {[ "user_id" := lit "3"; "role" := lit "usuario" ]})
  ∧ App.usuarios ucd Stub.users (Some (lit "3")) (Some (lit "usuario"))
    = Response [summary (default Stub.jhon (Stub.users !! 2%nat))].
Proof.
  assert (keys_ok Stub.users) as Hkeys by (split; by_compute).
  assert (App.login ucd Stub.digest Stub.users
            (Some (lit "valentina_rios_3")) (Some (lit "password"))
          = Response (public_user (default Stub.jhon (Stub.users !! 2%nat)),
                      {[ "user_id" := lit "3"; "role" := lit "usuario" ]}))
    as Hlogin by (vm_compute; reflexivity).
  split; [exact Hkeys|]. split; [exact Hlogin|].
  exact (proj1 (logged_in_listing _ _ _ _ _ _ Hkeys Hlogin) eq_refl).
Defined.


(** X10. Logging out ends the session.  [logout] deletes exactly the
    cookies that a login sets, and once a client has dropped them
    [GET /usuarios] answers 401, whatever else its cookie jar holds. *)
Theorem logout_ends_session (U : unicode)
    (bcrypt_raw : pystr → bytes → pystr) (t : table)
    (jar : gmap string pystr) (body : gmap string pystr)
    (names : list string) :
  App.logout = Response (body, names) →
  (∀ req_username req_password user cookies,
     App.login U bcrypt_raw t req_username req_password
     = Response (user, cookies) →
     dom cookies = list_to_set names)
  ∧ App.usuarios U t (jar_delete names jar !! "user_id")
      (jar_delete names jar !! "role")
    = HTTPException 401 "No autenticado".
Proof.
  intros [= <- <-]. split.
  - intros u p user cookies. rewrite login_spec. cbv zeta.
    destruct (find_user t _) as [r|]; [|discriminate].
    destruct (checkpw _ _ _); [|discriminate].
    intros [= <- <-]. reflexivity.
  - unfold jar_delete. simpl. by rewrite lookup_delete_eq.
Qed.

Lemma logout_ends_session_witness :
  App.logout = Response ({[ "message" := lit "Logout OK" ]}, ["user_id"; "role"])
  ∧ App.usuarios ucd Stub.users
      (jar_delete ["user_id"; "role"]
         (jar_set {[ "user_id" := lit "1"; "role" := lit "admin" ]} ∅)
       !! "user_id")
      (jar_delete ["user_id"; "role"]
         (jar_set {[ "user_id" := lit "1"; "role" := lit "admin" ]} ∅)
       !! "role")
    = HTTPException 401 "No autenticado".
Proof.
  split; [reflexivity|].
  exact (proj2 (logout_ends_session ucd Stub.digest Stub.users
                  (jar_set {[ "user_id" := lit "1"; "role" := lit "admin" ]} ∅)
                  _ _ eq_refl)).
Defined.

(** ** Whitespace around the username *)

Section Strip.
Variable U : unicode.

Lemma lstrip_head (s : pystr) :
  if Str.lstrip U s is c :: _ then isspace U c = false else True.
Proof.
  induction s as [|c s IH]; [done|]. simpl.
  by destruct (isspace U c) eqn:Hc.
Qed.

Lemma lstrip_idem (s : pystr) :
  Str.lstrip U (Str.lstrip U s) = Str.lstrip U s.
Proof. apply lstrip_id, lstrip_head. Qed.

Lemma lstrip_snoc (s : pystr) (c : N) :
  isspace U c = false → Str.lstrip U (s ++ [c]) = Str.lstrip U s ++ [c].
Proof.
  intros Hc. induction s as [|d s IH]; simpl; [by rewrite Hc|].
  by destruct (isspace U d).
Qed.

(** Stripping twice is stripping once. *)
Lemma strip_idem (s : pystr) :
  Str.strip U (Str.strip U s) = Str.strip U s.
Proof.
  unfold Str.strip. pose proof (lstrip_head s) as Hhead.
  destruct (Str.lstrip U s) as [|c y]; [reflexivity|].
  rewrite reverse_cons, lstrip_snoc, reverse_snoc by done.
  rewrite (lstrip_id U (c :: _)) by done.
  rewrite reverse_cons, reverse_involutive, lstrip_snoc, lstrip_idem by done.
  by rewrite reverse_snoc.
Qed.

End Strip.

(** X11. [login] ignores whitespace around the username and nothing else:
    a username and its stripped form give the same response, and a field
    that is missing from the body counts as the empty string. *)
Theorem login_strips_username (U : unicode)
    (bcrypt_raw : pystr → bytes → pystr) (t : table) (name : pystr)
    (req_username req_password : option pystr) :
  App.login U bcrypt_raw t (Some name) req_password
  = App.login U bcrypt_raw t (Some (Str.strip U name)) req_password
  ∧ App.login U bcrypt_raw t None req_password
    = App.login U bcrypt_raw t (Some []) req_password
  ∧ App.login U bcrypt_raw t req_username None
    = App.login U bcrypt_raw t req_username (Some []).
Proof.
  split; [|split; reflexivity].
  rewrite !login_spec. cbv zeta.
  assert (Str.strip U (if truthy_str (Some name)
                       then default [] (Some name) else [])
          = Str.strip U name) as ->.
  { simpl. case_bool_decide as Hn; [done|]. by rewrite Hn. }
  assert (Str.strip U (if truthy_str (Some (Str.strip U name))
                       then default [] (Some (Str.strip U name)) else [])
          = Str.strip U name) as ->; [|done].
  simpl. case_bool_decide as Hn; [apply strip_idem|]. by rewrite Hn.
Qed.

(** ** Listings are parts of the table *)

(** X12. Every listing is a sub-sequence of the summaries of the whole
    table: its records come in table order, none is repeated or made up,
    and every record listed for any caller is one the admin sees. *)
Theorem listing_sublist (t : table) (caller_id : Z) (caller_role : pystr) :
  Models.get_users_for_role t caller_id caller_role
    `sublist_of` (summary <$> t)
  ∧ App._get_users_for_role t caller_id caller_role
      `sublist_of` Models.get_users_for_role t 0 (lit "admin").
Proof.
  assert (Models.get_users_for_role t caller_id caller_role
            `sublist_of` (summary <$> t)) as Hsub.
  { rewrite listing_spec. repeat case_decide;
      [done | | | apply sublist_nil_l];
      apply fmap_sublist, sublist_filter. }
  split; [exact Hsub|].
  change (App._get_users_for_role t caller_id caller_role)
    with (Models.get_users_for_role t caller_id caller_role).
  by rewrite (listing_spec t 0 (lit "admin")), decide_True.
Qed.

(** ** hash_password and verify_password *)



(** ** Slugs of names below U+0100 *)

(** A check that holds for every number below a bound, by evaluation. *)
Lemma forall_below (n : nat) (P : N → bool) :
  forallb P (N.of_nat <$> seq 0 n) = true →
  ∀ c, c < N.of_nat n → P c = true.
Proof.
  intros Hall c Hc. rewrite forallb_forall in Hall. apply Hall.
  apply list_elem_of_In, list_elem_of_fmap. exists (N.to_nat c).
  split; [by rewrite N2Nat.id|]. apply elem_of_seq. lia.
Qed.

Lemma squeeze_elem U (seen gap : bool) (s : pystr) (c : N) :
  c ∈ Spec.squeeze U seen gap s →
  c = 95 ∨ (c ∈ s ∧ (isalnum U c ∨ c = 95)).
Proof.
  revert seen gap. induction s as [|d s IH]; intros seen gap; simpl.
  - intros []%elem_of_nil.
  - destruct (isspace U d).
    + intros [?|[? ?]]%IH; [by left|]. right. split; [by right|done].
    + intros [Hc|[Hc|Hc]%elem_of_app]%elem_of_app.
      * left. destruct gap; [|by apply elem_of_nil in Hc].
        by apply list_elem_of_singleton in Hc.
      * case_bool_decide as Hd; [|by apply elem_of_nil in Hc].
        apply list_elem_of_singleton in Hc as ->. right. split; [left|done].
      * apply IH in Hc as [?|[? ?]]; [by left|].
        right. split; [by right|done].
Qed.

(** X14. The alphabet of a slug.  For a name whose code points lie below
    U+0100, every character of [_slugify]'s result is one of [a-z], [0-9],
    ["_"], or one of the six letters sharp s, ae, eth, o with stroke, thorn
    and mu, which have no decomposition and count as alphanumeric: no
    upper-case letter, no whitespace, no punctuation and no accented letter
    is ever kept. *)
Theorem slug_alphabet (text : pystr) :
  Forall (λ c, c < 256) text →
  Forall (λ c, slug_char c = true) (App._slugify ucd text).
Proof.
  intros Htext. rewrite app_slug_spec. apply Forall_forall. intros c Hc.
  apply squeeze_elem in Hc as [->|[Hc Hkeep]]; [reflexivity|].
  simpl in Hc. apply list_elem_of_fmap in Hc as (d & -> & Hd).
  unfold Spec.strip_diacritics in Hd. simpl in Hd.
  apply list_elem_of_filter in Hd as [Hccc Hd].
  unfold Ucd.nfkd in Hd. apply list_elem_of_bind in Hd as (c0 & Hd & Hc0).
  rewrite Forall_forall in Htext. apply Htext in Hc0.
  pose proof (forall_below 256
    (λ c0, forallb (λ d,
       implb ((Ucd.ccc d =? 0)
              && (Ucd.alnum (Ucd.lower_char d) || (Ucd.lower_char d =? 95)))
         (slug_char (Ucd.lower_char d)))
       (Ucd.assoc c0 Ucd.decomposition))) as Hcheck.
  specialize (Hcheck ltac:(vm_compute; reflexivity) c0 Hc0). simpl in Hcheck.
  rewrite forallb_forall in Hcheck.
  apply list_elem_of_In, Hcheck in Hd.
  rewrite (proj2 (N.eqb_eq _ _) Hccc) in Hd. simpl in Hd.
  destruct Hkeep as [Hal|H95].
  - simpl in Hal. apply Is_true_true in Hal. by rewrite Hal in Hd.
  - rewrite (proj2 (N.eqb_eq _ _) H95), orb_true_r in Hd. exact Hd.
Qed.

Lemma slug_alphabet_witness :
  Forall (λ c, c < 256) (lit "Stra" ++ [223] ++ lit "e  N" ++ [186; 7])
  ∧ App._slugify ucd (lit "Stra" ++ [223] ++ lit "e  N" ++ [186; 7])
    = lit "stra" ++ [223] ++ lit "e_no"
  ∧ Forall (λ c, slug_char c = true)
      (App._slugify ucd (lit "Stra" ++ [223] ++ lit "e  N" ++ [186; 7])).
Proof.
  assert (Forall (λ c, c < 256)
            (lit "Stra" ++ [223] ++ lit "e  N" ++ [186; 7])) as Htext.
  { apply Forall_forall. intros c Hc.
    repeat (apply elem_of_cons in Hc as [->|Hc]; [reflexivity|]).
    by apply elem_of_nil in Hc. }
  split; [exact Htext|]. split; [vm_compute; reflexivity|].
  exact (slug_alphabet _ Htext).
Defined.

(** ** Names on which the two implementations agree *)

Lemma ucd_assoc_ascii (c : N) :
  c < 128 → Ucd.assoc c Ucd.decomposition = [c].
Proof.
  intros Hc.
  pose proof (forall_below 128
    (λ c, bool_decide (Ucd.assoc c Ucd.decomposition = [c]))) as Hcheck.
  specialize (Hcheck ltac:(vm_compute; reflexivity) c Hc).
  by apply bool_decide_eq_true in Hcheck.
Qed.

Lemma ucd_alnum_facts (c : N) :
  ascii_alnum c = true →
  c < 128 ∧ c ≠ 32 ∧ Ucd.ccc c = 0 ∧ Ucd.lower_char c ≠ 32
  ∧ Ucd.space (Ucd.lower_char c) = false
  ∧ Ucd.alnum (Ucd.lower_char c) = true.
Proof.
  intros Hc. assert (c < 128) as Hlt.
  { unfold ascii_alnum, Ucd.between in Hc.
    repeat (apply orb_prop in Hc as [Hc|Hc]);
      apply andb_prop in Hc as [_ Hc%N.leb_le]; lia. }
  pose proof (forall_below 128
    (λ c, implb (ascii_alnum c)
            (bool_decide (c ≠ 32 ∧ Ucd.ccc c = 0 ∧ Ucd.lower_char c ≠ 32
                          ∧ Ucd.space (Ucd.lower_char c) = false
                          ∧ Ucd.alnum (Ucd.lower_char c) = true)))) as Hcheck.
  specialize (Hcheck ltac:(vm_compute; reflexivity) c Hlt). simpl in Hcheck.
  rewrite Hc in Hcheck. simpl in Hcheck.
  apply bool_decide_eq_true in Hcheck. tauto.
Qed.

Lemma plain_chars (in_word : bool) (s : pystr) :
  plain_from in_word s = true → Forall (λ c, c < 128 ∧ Ucd.ccc c = 0) s.
Proof.
  revert in_word. induction s as [|c s IH]; intros in_word; [constructor|].
  simpl. destruct (c =? 32) eqn:Hc.
  - apply N.eqb_eq in Hc as ->. intros [_ H]%andb_prop.
    constructor; [split; [lia|reflexivity] | by eapply IH].
  - intros [Hal H]%andb_prop. apply ucd_alnum_facts in Hal.
    constructor; [tauto | by eapply IH].
Qed.

(** A plain name has nothing to normalise and no mark to drop. *)
Lemma plain_strip_diacritics (in_word : bool) (s : pystr) :
  plain_from in_word s = true → Spec.strip_diacritics ucd s = s.
Proof.
  intros Hs%plain_chars.
  change (filter (λ ch, Ucd.ccc ch = 0)
            (s ≫= λ c, Ucd.assoc c Ucd.decomposition) = s).
  induction Hs as [|c s [Hc Hccc] _ IH]; [reflexivity|].
  rewrite bind_cons, ucd_assoc_ascii by done.
  change ([c] ++ ?l) with (c :: l).
  rewrite filter_cons_True by done. by rewrite IH.
Qed.

(** On a plain name the one pass of [squeeze] writes what replacing the
    spaces writes, in each of its three states. *)
Lemma plain_squeeze (s : pystr) :
  let out := λ s : pystr,
    (λ ch, if bool_decide (ch = 32) then 95 else ch)
    <$> (Ucd.lower_char <$> s) in
  (plain_from true s = true →
   Spec.squeeze ucd true false (Ucd.lower_char <$> s) = out s)
  ∧ (plain_from false s = true →
     Spec.squeeze ucd true true (Ucd.lower_char <$> s) = 95 :: out s)
  ∧ (plain_from false s = true →
     Spec.squeeze ucd false false (Ucd.lower_char <$> s) = out s).
Proof.
  intros out. induction s as [|c s (IHa & IHb & IHc)]; [by repeat split|].
  cbn [plain_from]. destruct (c =? 32) eqn:Hc.
  - apply N.eqb_eq in Hc as ->. split; [|split; intros [? _]%andb_prop; done].
    intros [_ Hs]%andb_prop. rewrite fmap_cons. cbn [Spec.squeeze].
    change (isspace ucd (Ucd.lower_char 32)) with true. cbv iota.
    rewrite IHb by done. unfold out. by rewrite !fmap_cons.
  - assert (∀ seen gap, ascii_alnum c = true → plain_from true s = true →
              Spec.squeeze ucd seen gap (Ucd.lower_char <$> c :: s)
              = (if gap then [95] else []) ++ out (c :: s)) as Hstep.
    { intros seen gap (_ & _ & _ & Hne & Hsp & Hal)%ucd_alnum_facts Hs.
      unfold out. rewrite !fmap_cons. cbn [Spec.squeeze].
      change (isspace ucd (Ucd.lower_char c))
        with (Ucd.space (Ucd.lower_char c)).
      change (isalnum ucd (Ucd.lower_char c))
        with (Ucd.alnum (Ucd.lower_char c)).
      rewrite Hsp, Hal, IHa by done.
      rewrite (bool_decide_eq_true_2 (true ∨ _)) by (by left).
      rewrite (bool_decide_eq_false_2 (Ucd.lower_char c = 32)) by done.
      by destruct gap. }
    split; [|split]; intros [Hal Hs]%andb_prop; by rewrite Hstep.
Qed.

Lemma plain_slug (nombre : pystr) :
  plain_name nombre = true →
  App._slugify ucd nombre
  = (λ ch, if bool_decide (ch = 32) then 95 else ch)
    <$> (Ucd.lower_char <$> nombre).
Proof.
  intros Hplain. unfold plain_name in Hplain.
  rewrite app_slug_spec. unfold Spec.slug.
  rewrite (plain_strip_diacritics false) by done.
  by apply plain_squeeze.
Qed.

Lemma plain_usernames (nombre : pystr) (id : Z) :
  plain_name nombre = true →
  App.make_username ucd nombre id = Db.make_username ucd nombre id.
Proof.
  intros Hplain. unfold App.make_username, Db.make_username.
  by rewrite plain_slug, replace_space.
Qed.

(** X15. On plain names the two implementations agree: for a display name
    made of words of ASCII letters and digits with single spaces between
    them, app.py and db.py derive the same username, the lower-cased name
    with ["_"] for each space, followed by ["_<id>"]. *)
Theorem plain_names_agree (nombre : pystr) (id : Z) :
  plain_name nombre = true →
  App.make_username ucd nombre id = Db.make_username ucd nombre id
  ∧ App.make_username ucd nombre id
    = ((λ ch, if bool_decide (ch = 32) then 95 else ch)
       <$> (Ucd.lower_char <$> nombre)) ++ lit "_" ++ str_of_int id.
Proof.
  intros Hplain. split; [by apply plain_usernames|].
  unfold App.make_username. by rewrite plain_slug.
Qed.

Lemma plain_names_agree_witness :
  plain_name (lit "Jhon Doe") = true
  ∧ App.make_username ucd (lit "Jhon Doe") 1 = lit "jhon_doe_1"
  ∧ App.make_username ucd (lit "Jhon Doe") 1
    = Db.make_username ucd (lit "Jhon Doe") 1.
Proof.
  split; [reflexivity|]. split; [vm_compute; reflexivity|].
  exact (proj1 (plain_names_agree (lit "Jhon Doe") 1 eq_refl)).
Defined.

(** ** The username that the test derives *)

Lemma strip_ends U (s : pystr) (c d : N) :
  head s = Some c → last s = Some d →
  isspace U c = false → isspace U d = false → Str.strip U s = s.
Proof.
  intros Hc Hd Hsc Hsd. unfold Str.strip.
  rewrite (lstrip_id U s) by (destruct s; [done|]; by injection Hc as ->).
  apply last_Some in Hd as [s' ->]. rewrite reverse_snoc.
  rewrite (lstrip_id U (d :: _)) by done.
  by rewrite reverse_cons, reverse_involutive.
Qed.

Lemma lstrip_chars_id (chars s : pystr) (c : N) :
  head s = Some c → c ∉ chars → Tests.lstrip_chars chars s = s.
Proof.
  destruct s as [|c' s]; [done|]. intros [= ->] Hc. simpl.
  by rewrite bool_decide_eq_false_2.
Qed.

Lemma strip_chars_ends (chars s : pystr) (c d : N) :
  head s = Some c → last s = Some d → c ∉ chars → d ∉ chars →
  Tests.strip_chars chars s = s.
Proof.
  intros Hc Hd Hsc Hsd. unfold Tests.strip_chars.
  rewrite (lstrip_chars_id chars s c) by done.
  apply last_Some in Hd as [s' ->]. rewrite reverse_snoc.
  rewrite (lstrip_chars_id chars (d :: _) d) by done.
  by rewrite reverse_cons, reverse_involutive.
Qed.

Lemma ucd_alnum_slug (c : N) :
  ascii_alnum c = true →
  Ucd.between 97 122 (Ucd.lower_char c)
  || Ucd.between 48 57 (Ucd.lower_char c) = true.
Proof.
  intros Hc. pose proof (ucd_alnum_facts c Hc) as (Hlt & _).
  pose proof (forall_below 128
    (λ c, implb (ascii_alnum c)
            (Ucd.between 97 122 (Ucd.lower_char c)
             || Ucd.between 48 57 (Ucd.lower_char c)))) as Hcheck.
  specialize (Hcheck ltac:(vm_compute; reflexivity) c Hlt). simpl in Hcheck.
  by rewrite Hc in Hcheck.
Qed.

(** The lower-cased plain name with its spaces replaced: it begins and ends
    with a letter or a digit. *)
Lemma plain_ends (s : pystr) :
  plain_name s = true →
  ∃ c d, head (Ucd.lower_char <$> s) = Some (Ucd.lower_char c)
         ∧ last (Ucd.lower_char <$> s) = Some (Ucd.lower_char d)
         ∧ ascii_alnum c = true ∧ ascii_alnum d = true.
Proof.
  unfold plain_name. intros Hs.
  assert (∀ b s, plain_from b s = true → s ≠ [] →
            ∃ d, last s = Some d ∧ ascii_alnum d = true) as Hlast.
  { clear. intros b s. revert b.
    induction s as [|c s IH]; intros b Hs Hne; [done|].
    simpl in Hs. destruct s as [|c' s].
    - exists c. split; [done|]. destruct (c =? 32).
      + by apply andb_prop in Hs as [_ ?].
      + by apply andb_prop in Hs as [? _].
    - destruct (c =? 32); apply andb_prop in Hs as [_ Hs];
        destruct (IH _ Hs) as (d & Hd & Hal); try done;
        exists d; split; done. }
  destruct s as [|c s]; [done|].
  destruct (Hlast _ _ Hs) as (d & Hd & Hal); [done|].
  exists c, d. split; [done|]. split; [by rewrite fmap_last, Hd|].
  split; [|done]. simpl in Hs. destruct (c =? 32); [done|].
  by apply andb_prop in Hs as [? _].
Qed.

Lemma plain_sub_runs (s : pystr) :
  let out := λ s : pystr,
    (λ ch, if bool_decide (ch = 32) then 95 else ch)
    <$> (Ucd.lower_char <$> s) in
  (plain_from true s = true →
   Tests.sub_runs false (Ucd.lower_char <$> s) = out s)
  ∧ (plain_from false s = true →
     ∀ b, Tests.sub_runs b (Ucd.lower_char <$> s) = out s).
Proof.
  intros out. induction s as [|c s [IHa IHb]]; [by split|].
  cbn [plain_from]. destruct (c =? 32) eqn:Hc.
  - apply N.eqb_eq in Hc as ->. split; [|by intros [? _]%andb_prop].
    intros [_ Hs]%andb_prop. unfold out. rewrite !fmap_cons.
    cbn [Tests.sub_runs]. change (Ucd.lower_char 32) with 32.
    change (Ucd.between 97 122 32 || Ucd.between 48 57 32) with false.
    cbv iota. rewrite IHb by done. reflexivity.
  - assert (ascii_alnum c = true → plain_from true s = true →
            ∀ b, Tests.sub_runs b (Ucd.lower_char <$> c :: s) = out (c :: s))
      as Hstep.
    { intros Hal Hs b. unfold out. rewrite !fmap_cons.
      cbn [Tests.sub_runs]. rewrite ucd_alnum_slug by done.
      rewrite IHa by done.
      apply ucd_alnum_facts in Hal as (_ & _ & _ & Hne & _).
      by rewrite (bool_decide_eq_false_2 (Ucd.lower_char c = 32)) by done. }
    split; [intros [Hal Hs]%andb_prop; by apply Hstep|].
    intros [Hal Hs]%andb_prop b. by apply Hstep.
Qed.

Lemma plain_ascii_nfkd (b : bool) (s : pystr) :
  plain_from b s = true →
  filter (λ c, c < 128) (normalize_NFKD ucd s) = s.
Proof.
  intros Hch%plain_chars.
  change (filter (λ c, c < 128)
            (s ≫= λ c, Ucd.assoc c Ucd.decomposition) = s).
  induction Hch as [|c s [Hc _] _ IH]; [reflexivity|].
  rewrite bind_cons, ucd_assoc_ascii by done.
  change ([c] ++ ?l) with (c :: l).
  rewrite filter_cons_True by done. by rewrite IH.
Qed.

(** X16. The test's own derivation agrees with the application on plain
    names: for a display name of ASCII letters and digits in words with
    single spaces between them, [_slugify_nombre] of test_roles.py returns
    what [_slugify] of app.py returns, so the username that the test builds
    is the one that app.py stored. *)
Theorem test_helper_agrees (nombre : pystr) (id : Z) :
  plain_name nombre = true →
  Tests._slugify_nombre ucd nombre = App._slugify ucd nombre
  ∧ Tests._slugify_nombre ucd nombre ++ lit "_" ++ str_of_int id
    = App.make_username ucd nombre id.
Proof.
  intros Hplain.
  assert (Tests._slugify_nombre ucd nombre = App._slugify ucd nombre)
    as Heq.
  2: { split; [exact Heq|]. unfold App.make_username. cbv zeta.
       by rewrite Heq. }
  rewrite plain_slug by done. unfold Tests._slugify_nombre.
  rewrite (plain_ascii_nfkd false) by done.
  destruct (plain_ends nombre Hplain) as (c & d & Hhead & Hlast & Hc & Hd).
  pose proof (ucd_alnum_facts c Hc) as (_ & _ & _ & Hc32 & Hcsp & _).
  pose proof (ucd_alnum_facts d Hd) as (_ & _ & _ & Hd32 & Hdsp & _).
  cbv zeta. change (lower ucd nombre) with (Ucd.lower_char <$> nombre).
  rewrite (strip_ends ucd _ _ _ Hhead Hlast) by done.
  rewrite (proj2 (plain_sub_runs nombre)) by done.
  apply (strip_chars_ends _ _ (Ucd.lower_char c) (Ucd.lower_char d)).
  - destruct nombre as [|c' s]; [done|]. rewrite !fmap_cons in *.
    cbn [head] in *. injection Hhead as Hh. rewrite Hh.
    by rewrite (bool_decide_eq_false_2 (Ucd.lower_char c = 32)).
  - rewrite fmap_last, Hlast. cbn [fmap option_fmap option_map].
    by rewrite (bool_decide_eq_false_2 (Ucd.lower_char d = 32)).
  - pose proof (ucd_alnum_slug c Hc) as Hs. change (lit "_") with [95].
    intros Heq%list_elem_of_singleton. by rewrite Heq in Hs.
  - pose proof (ucd_alnum_slug d Hd) as Hs. change (lit "_") with [95].
    intros Heq%list_elem_of_singleton. by rewrite Heq in Hs.
Qed.

Lemma test_helper_agrees_witness :
  plain_name (lit "Valentina Rios") = true
  ∧ Tests._slugify_nombre ucd (lit "Valentina Rios") = lit "valentina_rios"
  ∧ Tests._slugify_nombre ucd (lit "Valentina Rios") ++ lit "_"
    ++ str_of_int 3
    = App.make_username ucd (lit "Valentina Rios") 3.
Proof.
  split; [reflexivity|]. split; [vm_compute; reflexivity|].
  exact (proj2 (test_helper_agrees (lit "Valentina Rios") 3 eq_refl)).
Defined.

(** ** The lookups by username *)

Lemma find_user_none (t : table) (name : pystr) :
  find_user t name = None ↔ name ∉ username <$> t.
Proof.
  unfold find_user. split.
  - intros Hnone (r & -> & Hr)%list_elem_of_fmap.
    assert (r ∈ filter (λ r', username r' = username r) t) as Hin
      by (by apply list_elem_of_filter).
    destruct (filter _ t); [by apply elem_of_nil in Hin | done].
  - intros Hname. rewrite filter_none; [done|].
    intros r Hr Heq. apply Hname. rewrite <- Heq.
    by apply list_elem_of_fmap_2.
Qed.

(** X17. The three lookups by username.  The lookup of app.py and the
    login lookup of models.py are the same function; the public lookup of
    models.py returns the same record without its hash; they return [None]
    exactly when no row has that username; and on a store with unique
    usernames the name of a stored row finds that row. *)
Theorem lookups_by_username (t : table) (name : pystr) :
  App._get_user_by_username t name = Models.get_user_auth_by_username t name
  ∧ Models.get_user_by_username t name
    = delete "password_hash" <$> Models.get_user_auth_by_username t name
  ∧ (Models.get_user_auth_by_username t name = None
     ↔ name ∉ username <$> t)
  ∧ (keys_ok t → ∀ r, r ∈ t →
     Models.get_user_auth_by_username t (username r) = Some (full_user r)).
Proof.
  rewrite app_lookup, models_lookup, models_public_lookup.
  split; [done|]. split; [by destruct (find_user t name)|]. split.
  - rewrite <- find_user_none. by destruct (find_user t name).
  - intros [_ Hnames] r Hr. by rewrite models_lookup, find_user_stored.
Qed.

Lemma lookups_by_username_witness :
  keys_ok Stub.users ∧ Stub.jhon ∈ Stub.users
  ∧ Models.get_user_auth_by_username Stub.users (username Stub.jhon)
    = Some (full_user Stub.jhon).
Proof.
  assert (keys_ok Stub.users) as Hkeys by (split; by_compute).
  assert (Stub.jhon ∈ Stub.users) as Hin.
  { assert (Stub.users = Stub.jhon :: drop 1 Stub.users) as Heq
      by (vm_compute; reflexivity).
    rewrite Heq. left. }
  split; [exact Hkeys|]. split; [exact Hin|].
  exact (proj2 (proj2 (proj2 (lookups_by_username Stub.users [])))
           Hkeys _ Hin).
Defined.

(** ** The two seedings side by side *)

Lemma plain_rows_agree raw salts from (items : list seed_item) :
  Forall (λ item, if item is SeedObj _ n _ _
                  then plain_name n = true else True) items →
  (λ r, (uid r, nombre r, rol r, renta_mensual r, username r))
  <$> app_rows ucd raw salts from items
  = (λ r, (uid r, nombre r, rol r, renta_mensual r, username r))
    <$> db_rows ucd items.
Proof.
  intros Hplain. revert from.
  induction Hplain as [|item items Hitem _ IH]; intros from; [reflexivity|].
  rewrite db_rows_cons. destruct item as [id n r q|e]; simpl.
  - f_equal; [|apply IH]. do 4 f_equal.
    by apply plain_usernames.
  - apply IH.
Qed.

(** X18. The two seedings are interchangeable on plain names.  From the
    same seed file, [init_db] of app.py succeeds on an empty store exactly
    when [init_db] of db.py does; and when every name is plain, the two
    stores hold the same ids, names, roles, incomes and usernames, row by
    row: they differ in the password hashes only. *)
Theorem seedings_agree raw salts env data (ta tb : table) :
  ((∃ t, durable (App.init_db ucd raw salts env data) [] = (Ok (), t))
   ↔ (∃ t, durable (Db.init_db ucd data) [] = (Ok (), t)))
  ∧ (durable (App.init_db ucd raw salts env data) [] = (Ok (), ta) →
     durable (Db.init_db ucd data) [] = (Ok (), tb) →
     (∀ items, data = Ok items →
        Forall (λ item, if item is SeedObj _ n _ _
                        then plain_name n = true else True) items) →
     (λ r, (uid r, nombre r, rol r, renta_mensual r, username r)) <$> ta
     = (λ r, (uid r, nombre r, rol r, renta_mensual r, username r)) <$> tb).
Proof.
  split.
  - split; intros [t Ht].
    + apply app_seeding_iff in Ht as (items & Hd & Hrec & Hnd & _).
      exists (db_rows ucd items). apply db_seeding_iff. eauto.
    + apply db_seeding_iff in Ht as (items & Hd & Hrec & Hnd & _).
      exists (app_rows ucd raw salts 0 items). apply app_seeding_iff. eauto.
  - intros Ha Hb Hplain.
    apply app_seeding_iff in Ha as (items & Hd & _ & _ & ->).
    apply db_seeding_iff in Hb as (items' & Hd' & _ & _ & ->).
    rewrite Hd in Hd'. injection Hd' as <-.
    apply plain_rows_agree. by apply Hplain.
Qed.

Lemma seedings_agree_witness :
  durable (App.init_db ucd Stub.digest Stub.salts None (Ok Stub.seed)) []
  = (Ok (), Stub.users)
  ∧ durable (Db.init_db ucd (Ok Stub.seed)) [] = (Ok (), Stub.db_users)
  ∧ (λ r, (uid r, nombre r, rol r, renta_mensual r, username r))
    <$> Stub.users
    = (λ r, (uid r, nombre r, rol r, renta_mensual r, username r))
      <$> Stub.db_users.
Proof.
  assert (durable (App.init_db ucd Stub.digest Stub.salts None (Ok Stub.seed))
            [] = (Ok (), Stub.users)) as Ha by (vm_compute; reflexivity).
  assert (durable (Db.init_db ucd (Ok Stub.seed)) [] = (Ok (), Stub.db_users))
    as Hb by (vm_compute; reflexivity).
  split; [exact Ha|]. split; [exact Hb|].
  apply (proj2 (seedings_agree Stub.digest Stub.salts None (Ok Stub.seed)
                  Stub.users Stub.db_users) Ha Hb).
  intros items [= <-]. by repeat constructor.
Defined.

(** ** Logging in after seeding *)

Lemma squeeze_no_space U (seen gap : bool) (s : pystr) :
  isspace U 95 = false →
  Forall (λ c, isspace U c = false) (Spec.squeeze U seen gap s).
Proof.
  intros H95. revert seen gap.
  induction s as [|c s IH]; intros seen gap; simpl; [constructor|].
  destruct (isspace U c) eqn:Hc; [apply IH|].
  apply Forall_app. split; [destruct gap; by repeat constructor|].
  apply Forall_app. split; [|apply IH].
  case_bool_decide; by repeat constructor.
Qed.

Lemma str_of_int_chars (n : Z) :
  Forall (λ c, c ∈ lit "-0123456789") (str_of_int n).
Proof.
  destruct (str_of_int_cases n) as (ds & _ & Hds & _ & ->).
  assert (Forall (λ c, c ∈ lit "-0123456789") ds) as Hin.
  { eapply Forall_impl; [exact Hds|]. intros c Hc. simpl in Hc.
    assert (c = 48 ∨ c = 49 ∨ c = 50 ∨ c = 51 ∨ c = 52 ∨ c = 53 ∨ c = 54
            ∨ c = 55 ∨ c = 56 ∨ c = 57) as Hcases by lia.
    change (lit "-0123456789")
      with [45; 48; 49; 50; 51; 52; 53; 54; 55; 56; 57].
    repeat (destruct Hcases as [->|Hcases]; [by_compute|]).
    subst c. by_compute. }
  case_decide; [|done]. constructor; [left|done].
Qed.

(** A username that app.py derives has no whitespace in it, as long as the
    underscore, the minus sign and the ten digits are not whitespace. *)
Lemma app_username_no_space U (nombre : pystr) (id : Z) :
  (∀ c, c ∈ lit "_-0123456789" → isspace U c = false) →
  Forall (λ c, isspace U c = false) (App.make_username U nombre id).
Proof.
  intros Hsp. unfold App.make_username. rewrite app_slug_spec.
  apply Forall_app. split; [apply squeeze_no_space, Hsp; left|].
  apply Forall_app. split; [constructor; [apply Hsp; left|constructor]|].
  eapply Forall_impl; [apply str_of_int_chars|].
  intros c Hc. simpl in Hc. apply Hsp. by right.
Qed.

(** X6. On app.py the default password works, end to end.  After a run
    that seeded an empty store (the salts having the length of a bcrypt
    salt), [POST /login] with the username of any stored user and the
    password ["password"] answers with that user's public record and sets
    the cookies to the user's id and role; with a password that bcrypt does
    not verify against the stored hash it answers 401.  The username comes
    through [strip] unchanged because a derived username holds no
    whitespace. *)
Theorem seeded_user_logs_in U raw salts env (items : list seed_item)
    (t' : table) (r : row) :
  (∀ c, c ∈ lit "_-0123456789" → isspace U c = false) →
  (∀ i, (i < length items)%nat → length (salts i) = 29%nat) →
  durable (App.init_db U raw salts env (Ok items)) [] = (Ok (), t') →
  r ∈ t' →
  App.login U raw t' (Some (username r)) (Some (lit "password"))
  = Response (public_user r,
              {[ "user_id" := str_of_int (uid r); "role" := rol r ]})
  ∧ ∀ p, checkpw raw (encode_utf8 p) (password_hash r) = false →
         App.login U raw t' (Some (username r)) (Some p)
         = HTTPException 401 "Credenciales invalidas".
Proof.
  intros Hsp Hlen Hrun Hr.
  apply app_init_db_cases in Hrun
    as [(_ & ? & _)|(_ & [(e & ? & _)|(items' & Hd & Hrec & _ & -> & Hk)])];
    [done | done |].
  injection Hd as <-.
  assert (Str.strip U (username r) = username r) as Hstrip.
  { apply strip_id.
    assert (username r ∈ username <$> app_rows U raw salts 0 items)
      as Hname by (by apply list_elem_of_fmap_2).
    apply app_rows_usernames in Hname as (id & n & -> & _).
    by apply app_username_no_space. }
  assert (find_user (app_rows U raw salts 0 items) (username r) = Some r)
    as Hfind
    by (apply find_user_stored; [apply Hk | done]).
  assert (∀ p, App.login U raw (app_rows U raw salts 0 items)
                 (Some (username r)) (Some p)
               = if checkpw raw (encode_utf8 p) (password_hash r)
                 then Response (public_user r,
                        {[ "user_id" := str_of_int (uid r);
                           "role" := rol r ]})
                 else HTTPException 401 "Credenciales invalidas") as Hlogin.
  { intros p. rewrite login_spec. cbv zeta.
    assert (Str.strip U (if truthy_str (Some (username r))
                         then default [] (Some (username r)) else [])
            = username r) as ->.
    { simpl. case_bool_decide as Hn; [done|]. by rewrite Hn. }
    rewrite Hfind.
    assert ((if truthy_str (Some p) then default [] (Some p) else []) = p)
      as ->; [|done].
    simpl. case_bool_decide as Hn; [done|]. by rewrite Hn. }
  split.
  - rewrite Hlogin.
    apply app_rows_elem in Hr as (k & Hk' & ->).
    change (encode_utf8 (lit "password")) with (lit "password").
    rewrite checkpw_hashpw; [done|]. apply Hlen. lia.
  - intros p Hp. by rewrite Hlogin, Hp.
Qed.

Lemma seeded_user_logs_in_witness :
  (∀ c, c ∈ lit "_-0123456789" → isspace ucd c = false)
  ∧ (∀ i, (i < length Stub.seed)%nat → length (Stub.salts i) = 29%nat)
  ∧ durable (App.init_db ucd Stub.digest Stub.salts None (Ok Stub.seed)) []
    = (Ok (), Stub.users)
  ∧ Stub.jhon ∈ Stub.users
  ∧ App.login ucd Stub.digest Stub.users (Some (username Stub.jhon))
      (Some (lit "password"))
    = Response (public_user Stub.jhon,
                {[ "user_id" := str_of_int (uid Stub.jhon);
                   "role" := rol Stub.jhon ]}).
Proof.
  assert (∀ c, c ∈ lit "_-0123456789" → isspace ucd c = false) as Hsp.
  { intros c Hc.
    repeat (apply elem_of_cons in Hc as [->|Hc]; [reflexivity|]).
    by apply elem_of_nil in Hc. }
  assert (∀ i, (i < length Stub.seed)%nat → length (Stub.salts i) = 29%nat)
    as Hlen by (intros i _; reflexivity).
  assert (durable (App.init_db ucd Stub.digest Stub.salts None (Ok Stub.seed))
            [] = (Ok (), Stub.users)) as Hrun by (vm_compute; reflexivity).
  assert (Stub.jhon ∈ Stub.users) as Hin.
  { assert (Stub.users = Stub.jhon :: drop 1 Stub.users) as Heq
      by (vm_compute; reflexivity).
    rewrite Heq. left. }
  split; [exact Hsp|]. split; [exact Hlen|]. split; [exact Hrun|].
  split; [exact Hin|].
  exact (proj1 (seeded_user_logs_in ucd Stub.digest Stub.salts None Stub.seed
                  Stub.users Stub.jhon Hsp Hlen Hrun Hin)).
Defined.
